(** * Shuffle Battle: the playlist comparison pipeline

    A shallow embedding of the two versions of [App.jsx] of the repository:

    - the popularity version ([src/src/App.jsx]), which compares the average
      track popularity of two playlists and highlights the more "underground"
      one (module [Popularity]);
    - the category version ([src/unnamed/part_000]), which compares the mean
      of one audio feature chosen through a category label (module
      [Category]).

    Both versions share the credential cache ([getToken]) and the extraction
    of a playlist identifier from a link ([extractPlaylistId]).

    Modelling conventions.

    - A JavaScript string is a [string]; [null] and [undefined] are [None].
    - A number is an IEEE 754 double, as in JavaScript: the primitive
      [float] of the prover, whose sum, quotient and comparisons round and
      compare as the code's do.  The facts used about them come from the
      specification of the primitive floats ([FloatAxioms]).
    - Time is in milliseconds ([Z]); [Date.now()] reads the clock of the
      state, and the clock advances while a network call is awaited.
    - The upstream service is a [world]: for every endpoint, a function from
      the number of requests issued so far and the request's arguments to the
      outcome of the call.  The requests issued are recorded in the state, so
      that "no network call" is a statement about the state.
    - The JSON bodies have the shape the endpoints document; a field is
      optional in the model where the code tests it ([!x], [x && y], [x?.y],
      [x || d]).
    - [console.log] and [console.error] append to the console of the state
      (the first argument of the call is recorded). *)

From Stdlib Require Import ZArith String Ascii List Lia Floats.
From stdpp Require Import base tactics option list strings gmap numbers.

Local Open Scope string_scope.
Local Open Scope list_scope.
Local Open Scope Z_scope.

(** ** JavaScript values used by the code *)

(** Truthiness of a string-or-null value: [null], [undefined] and the empty
    string are falsy. *)
Definition truthy (v : option string) : bool :=
  match v with
  | Some s => negb (String.eqb s "")
  | None => false
  end.

(** The numbers that are falsy: [0], [-0] and [NaN]. *)
Definition falsy (x : float) : bool := (x =? 0)%float || is_nan x.

(** [x || 0] on a number-or-undefined value: [undefined] and the falsy
    numbers give [0]. *)
Definition or_zero (v : option float) : float :=
  match v with
  | Some x => if falsy x then 0%float else x
  | None => 0%float
  end.

(** [a < b] and [a > b] on numbers: false as soon as one side is [NaN]. *)
Definition num_lt (a b : float) : bool := (a <? b)%float.

Definition num_gt (a b : float) : bool := num_lt b a.

(** [array.length] as a number. *)
Definition length_number {A} (l : list A) : float :=
  of_uint63 (Uint63.of_Z (Z.of_nat (length l))).

(** [String.prototype.toLowerCase] on the ASCII letters. *)
Definition lower_ascii (c : ascii) : ascii :=
  let n := nat_of_ascii c in
  if (65 <=? n)%nat && (n <=? 90)%nat then ascii_of_nat (n + 32) else c.

Fixpoint toLowerCase (s : string) : string :=
  match s with
  | EmptyString => EmptyString
  | String c s' => String (lower_ascii c) (toLowerCase s')
  end.

(** ** [extractPlaylistId]: the regular expression
    [/playlist\/([a-zA-Z0-9]{22})/] *)

(** The character class [[a-zA-Z0-9]]. *)
Definition is_alnum (c : ascii) : bool :=
  let n := nat_of_ascii c in
  ((97 <=? n)%nat && (n <=? 122)%nat)
  || ((65 <=? n)%nat && (n <=? 90)%nat)
  || ((48 <=? n)%nat && (n <=? 57)%nat).

Definition playlist_slash : list ascii := list_ascii_of_string "playlist/".

(** [strip_prefix p s]: the rest of [s] after the literal [p], when [s]
    starts with [p]. *)
Fixpoint strip_prefix (p s : list ascii) : option (list ascii) :=
  match p, s with
  | [], _ => Some s
  | a :: p', b :: s' => if Ascii.eqb a b then strip_prefix p' s' else None
  | _ :: _, [] => None
  end.

(** An attempt of the expression at the start of [s]: the literal, then
    exactly 22 characters of the class, which are the capture group. *)
Definition match_at (s : list ascii) : option (list ascii) :=
  match strip_prefix playlist_slash s with
  | Some rest =>
      let id := take 22 rest in
      if (length id =? 22)%nat && forallb is_alnum id then Some id else None
  | None => None
  end.

(** [url.match(re)] without the [g] flag: the attempt is made at every
    position from the left, and the first success is the match. *)
Fixpoint regex_search (s : list ascii) : option (list ascii) :=
  match match_at s with
  | Some id => Some id
  | None =>
      match s with
      | [] => None
      | _ :: s' => regex_search s'
      end
  end.

(** The capture group [match[1]] of [url.match(re)], or [None] when [match]
    is [null]. *)
Definition url_match (url : string) : option string :=
  string_of_list_ascii <$> regex_search (list_ascii_of_string url).

(** ** The upstream service and the state of the page *)

(** The outcome of an axios call: the body of a 2xx response, or a rejection
    carrying [error.response.status] when a response came at all. *)
Inductive http (A : Type) : Type :=
  | Ok (data : A)
  | Failed (status : option Z).
Arguments Ok {A} data.
Arguments Failed {A} status.

(** [POST /api/token]: [{access_token, expires_in}]. *)
Record token_data := { access_token : string; expires_in : Z }.

(** [GET /v1/playlists/{id}/tracks]: [{items: [{track: {id, popularity}}]}]. *)
Record track_object := { track_id : option string; track_popularity : option float }.
Record item := { track : option track_object }.
Record tracks_data := { items : option (list item) }.

(** [GET /v1/playlists/{id}]: [{name, images: [{url}]}]. *)
Record image_object := { url : option string }.
Record playlist_data := { playlist_name : string; images : list image_object }.

(** [GET /v1/audio-features?ids=...]: [{audio_features: [{key: number}]}]. *)
Record features_data := { audio_features : option (list (gmap string float)) }.

(** A request, with the bearer token it carries. *)
Inductive request : Type :=
  | PostToken
  | GetPlaylist (playlistId bearer : string)
  | GetPlaylistTracks (playlistId bearer : string)
  | GetAudioFeatures (ids : list string) (bearer : string).

(** The upstream service.  The first argument of every function is the
    number of requests issued before this one. *)
Record world := {
  latency : nat → Z;
  token_endpoint : nat → http token_data;
  playlist_endpoint : nat → string → string → http playlist_data;
  tracks_endpoint : nat → string → string → http tracks_data;
  features_endpoint : nat → list string → string → http features_data
}.

Inductive log_line : Type :=
  | Log (label : string)
  | LogError (label : string).

(** The module-level variables [token] and [tokenExpirationTime], the clock,
    and the observable effects. *)
Record state := {
  token : option string;
  tokenExpirationTime : option Z;
  now : Z;
  requests : list request;
  console : list log_line
}.

(** A thrown value: [new Error(message)], or the rejection of axios. *)
Inductive exn : Type :=
  | Error (message : string)
  | AxiosError (status : option Z).

Inductive outcome (A : Type) : Type :=
  | Return (a : A)
  | Throw (e : exn).
Arguments Return {A} a.
Arguments Throw {A} e.

(** An async function body: it runs from a state to an outcome and a state. *)
Definition async (A : Type) : Type := state → outcome A * state.

#[global] Instance async_ret : MRet async := λ A a s, (Return a, s).

#[global] Instance async_bind : MBind async := λ A B f m s,
  match m s with
  | (Return a, s') => f a s'
  | (Throw e, s') => (Throw e, s')
  end.

#[global] Instance async_throw : MThrow exn async := λ A e s, (Throw e, s).

(** [try { body } catch (error) { handler }]. *)
Definition try_catch {A} (body : async A) (handler : exn → async A) : async A :=
  λ s,
    match body s with
    | (Return a, s') => (Return a, s')
    | (Throw e, s') => handler e s'
    end.

Definition read {A} (f : state → A) : async A := λ s, (Return (f s), s).

Definition Date_now : async Z := read now.

Definition set_token (v : option string) : async unit := λ s,
  (Return (), {| token := v; tokenExpirationTime := tokenExpirationTime s;
                 now := now s; requests := requests s; console := console s |}).

Definition set_tokenExpirationTime (v : option Z) : async unit := λ s,
  (Return (), {| token := token s; tokenExpirationTime := v;
                 now := now s; requests := requests s; console := console s |}).

Definition print (l : log_line) : async unit := λ s,
  (Return (), {| token := token s; tokenExpirationTime := tokenExpirationTime s;
                 now := now s; requests := requests s;
                 console := console s ++ [l] |}).

Definition console_log (label : string) : async unit := print (Log label).
Definition console_error (label : string) : async unit := print (LogError label).

(** Awaiting an axios call: the request is recorded, the clock advances, and
    the call resolves or rejects as the world says. *)
Definition await {A} (w : world) (r : request) (answer : nat → http A) : async A :=
  λ s,
    let n := length (requests s) in
    let s' := {| token := token s; tokenExpirationTime := tokenExpirationTime s;
                 now := now s + latency w n; requests := requests s ++ [r];
                 console := console s |} in
    match answer n with
    | Ok data => (Return data, s')
    | Failed status => (Throw (AxiosError status), s')
    end.

(** ** [getToken] (the same text in both versions) *)

(** [tokenExpirationTime] as the comparison [>] reads it: [null] is 0. *)
Definition to_number (v : option Z) : Z := default 0 v.

(** The [try] block of [getToken]: one exchange, then the cache is written. *)
Definition exchange (w : world) : async string :=
  try_catch
    (response ← await w PostToken (token_endpoint w);
     set_token (Some (access_token response));;
     t ← Date_now;
     set_tokenExpirationTime (Some (t + expires_in response * 1000));;
     console_log "New token generated:";;
     mret (access_token response))
    (λ error,
       console_error "Error fetching token:";;
       mthrow (Error "Failed to get access token")).

Definition getToken (w : world) : async string :=
  cached ← read token;
  expiry ← read tokenExpirationTime;
  t ← Date_now;
  match cached with
  | Some tok =>
      if truthy cached && bool_decide (t < to_number expiry)
      then mret tok
      else exchange w
  | None => exchange w
  end.

(** ** [extractPlaylistId] (the same text in both versions) *)

Definition extractPlaylistId (url : string) : async (option string) :=
  match url_match url with
  | None =>
      console_error "Invalid playlist URL:";;
      mret None
  | Some id => mret (Some id)
  end.

(** ** The popularity version: [src/src/App.jsx] *)

Module Popularity.

(** [{name, image}], as [getPlaylistInfo] returns it. *)
Record info := { name : string; image : string }.

(** [{id, popularity}], as [getPlaylistTracks] builds it.  The field
    [popularity] is optional because [calculateAveragePopularity] tests
    it. *)
Record track_entry := { id : string; popularity : option float }.

(** The object given to [setResult]: with the fields [name] and [image]
    of a playlist next to [message], or with [message] alone. *)
Inductive result : Type :=
  | WithPlaylist (playlist : info) (message : string)
  | MessageOnly (message : string).

Definition getPlaylistInfo (w : world) (playlistId : string) : async info :=
  try_catch
    (token ← getToken w;
     response ← await w (GetPlaylist playlistId token)
                        (λ n, playlist_endpoint w n playlistId token);
     console_log "Playlist Info Response:";;
     let playlistName := playlist_name response in
     (* the url of images[0] when there is one and it is truthy, else
        the empty string *)
     let playlistImage :=
       match head (images response) with
       | Some img => if truthy (url img) then default "" (url img) else ""
       | None => ""
       end in
     mret {| name := playlistName; image := playlistImage |})
    (λ error,
       console_error "Error fetching playlist info:";;
       mthrow (Error "Failed to fetch playlist info")).

(** [item => item.track && item.track.id] *)
Definition has_track_id (it : item) : bool :=
  match track it with
  | Some t => truthy (track_id t)
  | None => false
  end.

(** [item => ({id: item.track.id, popularity: item.track.popularity || 0})],
    on the items [has_track_id] keeps. *)
Definition to_entry (it : item) : option track_entry :=
  t ← track it;
  i ← track_id t;
  Some {| id := i; popularity := Some (or_zero (track_popularity t)) |}.

Definition getPlaylistTracks (w : world) (playlistId : string)
  : async (list track_entry) :=
  try_catch
    (token ← getToken w;
     response ← await w (GetPlaylistTracks playlistId token)
                        (λ n, tracks_endpoint w n playlistId token);
     console_log "Playlist Tracks Response:";;
     match items response with
     | None => mthrow (Error "No tracks found in the playlist")
     | Some its =>
         if (length its =? 0)%nat
         then mthrow (Error "No tracks found in the playlist")
         else
           let tracks := omap to_entry (List.filter has_track_id its) in
           mret tracks
     end)
    (λ error,
       console_error "Error fetching playlist:";;
       mthrow (Error "Failed to fetch playlist data")).

Definition calculateAveragePopularity (tracks : list track_entry) : float :=
  if (length tracks =? 0)%nat then 0%float
  else
    let totalPopularity :=
      fold_left (λ sum t, (sum + or_zero (popularity t))%float) tracks 0%float in
    (totalPopularity / length_number tracks)%float.

Definition underground (i : info) : string :=
  name i +:+ " is more underground, smell some good taste in there!".

Definition determineWinner (w : world) (playlist1Id playlist2Id : string)
  : async result :=
  try_catch
    (tracks1 ← getPlaylistTracks w playlist1Id;
     tracks2 ← getPlaylistTracks w playlist2Id;
     info1 ← getPlaylistInfo w playlist1Id;
     info2 ← getPlaylistInfo w playlist2Id;
     if (length tracks1 =? 0)%nat || (length tracks2 =? 0)%nat
     then mthrow (Error "One of the playlists has no tracks.")
     else
       let avgPopularity1 := calculateAveragePopularity tracks1 in
       let avgPopularity2 := calculateAveragePopularity tracks2 in
       let winner :=
         if num_gt avgPopularity1 avgPopularity2
         then WithPlaylist info2 (underground info2)
         else if num_lt avgPopularity1 avgPopularity2
         then WithPlaylist info1 (underground info1)
         else MessageOnly "Both playlists are equally underground!" in
       mret winner)
    (λ error,
       console_error "Error in determineWinner:";;
       mthrow (Error "Failed to determine winner")).

Definition blank (message : string) : result :=
  WithPlaylist {| name := ""; image := "" |} message.

(** [handleSubmit]: the value of the last [setResult]. *)
Definition handleSubmit (w : world) (playlist1 playlist2 : string)
  : async result :=
  if negb (truthy (Some playlist1)) || negb (truthy (Some playlist2))
  then mret (blank "Please fill in all fields!")
  else
    playlist1Id ← extractPlaylistId playlist1;
    playlist2Id ← extractPlaylistId playlist2;
    console_log "Playlist 1 ID:";;
    console_log "Playlist 2 ID:";;
    match playlist1Id, playlist2Id with
    | Some id1, Some id2 =>
        if negb (truthy playlist1Id) || negb (truthy playlist2Id)
        then mret (blank "Invalid playlist link!")
        else
          try_catch
            (determineWinner w id1 id2)
            (λ error,
               console_error "Error in handleSubmit:";;
               mret (blank "Error fetching playlist data!"))
    | _, _ => mret (blank "Invalid playlist link!")
    end.

End Popularity.

(** ** The category version: [src/unnamed/part_000] *)

Module Category.

(** The own properties of the object literal [categoryMapping]. *)
Definition categoryMapping : gmap string string :=
  list_to_map
    [ ("Sadder", "valence");
      ("Happier", "valence");
      ("Energetic", "energy");
      ("Danceable", "danceability");
      ("Louder", "loudness");
      ("Alive", "liveness") ].

(** An object literal inherits from [Object.prototype]: these property
    names are found on every such object. *)
Definition Object_prototype : list string :=
  [ "constructor"; "__proto__"; "hasOwnProperty"; "isPrototypeOf";
    "propertyIsEnumerable"; "toLocaleString"; "toString"; "valueOf";
    "__defineGetter__"; "__defineSetter__"; "__lookupGetter__";
    "__lookupSetter__" ].

(** The value of a property read on [categoryMapping]. *)
Inductive value : Type :=
  | Undefined
  | Str (s : string)
  | Builtin (property : string).

(** [categoryMapping[category]]: the own property, else the inherited one,
    else [undefined]. *)
Definition lookup_category (category : string) : value :=
  match categoryMapping !! category with
  | Some featureKey => Str featureKey
  | None =>
      if bool_decide (category ∈ Object_prototype)
      then Builtin category
      else Undefined
  end.

(** [!featureKey] is false on a non-empty string, and on the functions and
    the object that [Object.prototype] provides. *)
Definition is_truthy (v : value) : bool :=
  match v with
  | Undefined => false
  | Str s => truthy (Some s)
  | Builtin _ => true
  end.

(** The property key that [track[featureKey]] reads: the string itself, or
    the conversion of the inherited value to a string. *)
Definition property_key (v : value) : string :=
  match v with
  | Undefined => "undefined"
  | Str s => s
  | Builtin p =>
      if String.eqb p "__proto__" then "[object Object]"
      else if String.eqb p "constructor"
      then "function Object() { [native code] }"
      else "function " +:+ p +:+ "() { [native code] }"
  end.

(** [items.map((item) => item.track.id)]: reading [id] on a [null] track
    is a [TypeError]. *)
Definition track_ids (its : list item) : option (list (option string)) :=
  mapM (λ it, track_id <$> track it) its.

(** [.filter(Boolean)] *)
Definition filter_Boolean (ids : list (option string)) : list string :=
  omap (λ i, if truthy i then i else None) ids.

Definition getPlaylistTracks (w : world) (playlistId : string)
  : async (list string) :=
  try_catch
    (token ← getToken w;
     response ← await w (GetPlaylistTracks playlistId token)
                        (λ n, tracks_endpoint w n playlistId token);
     console_log "Playlist Tracks Response:";;
     match items response with
     | None => mthrow (Error "No tracks found in the playlist")
     | Some its =>
         if (length its =? 0)%nat
         then mthrow (Error "No tracks found in the playlist")
         else
           match track_ids its with
           | Some ids => mret (filter_Boolean ids)
           | None => mthrow (Error "TypeError: item.track is null")
           end
     end)
    (λ error,
       console_error "Error fetching playlist:";;
       mthrow (Error "Failed to fetch playlist data")).

(** [error.response && error.response.status === 429] *)
Definition is_rate_limit (error : exn) : bool :=
  match error with
  | AxiosError (Some status) => (status =? 429)%Z
  | _ => false
  end.

(** [id => id && id.length === 22] *)
Definition valid_track_id (id : string) : bool :=
  truthy (Some id) && (String.length id =? 22)%nat.

Definition getAudioFeatures (w : world) (trackIds : list string)
  : async (list (gmap string float)) :=
  try_catch
    (token ← getToken w;
     let validTrackIds := List.filter valid_track_id trackIds in
     if (length validTrackIds =? 0)%nat
     then mthrow (Error "No valid track IDs found")
     else
       response ← await w (GetAudioFeatures validTrackIds token)
                          (λ n, features_endpoint w n validTrackIds token);
       console_log "Audio Features Response:";;
       match audio_features response with
       | None => mthrow (Error "No audio features found")
       | Some features =>
           if (length features =? 0)%nat
           then mthrow (Error "No audio features found")
           else mret features
       end)
    (λ error,
       (if is_rate_limit error
        then console_error "Rate limit exceeded. Please try again later."
        else console_error "Error fetching audio features:");;
       mthrow (Error "Failed to fetch audio features")).

(** [audioFeatures.reduce((sum, track) => sum + (track[featureKey] || 0), 0)
    / audioFeatures.length], as the source writes it for each of the two
    lists. *)
Definition avgFeature (featureKey : value) (audioFeatures : list (gmap string float))
  : float :=
  let total :=
    fold_left
      (λ sum t, (sum + or_zero (t !! property_key featureKey))%float)
      audioFeatures 0%float in
  (total / length_number audioFeatures)%float.

(** The [if] on [category === "Sadder"] that chooses the message. *)
Definition verdict (category : string) (avgFeature1 avgFeature2 : float)
  : string :=
  if String.eqb category "Sadder"
  then
    if num_lt avgFeature1 avgFeature2
    then "Playlist 1 is sadder" else "Playlist 2 is sadder"
  else
    if num_gt avgFeature1 avgFeature2
    then "Playlist 1 is more " +:+ toLowerCase category
    else "Playlist 2 is more " +:+ toLowerCase category.

(** The test [!audioFeatures1 || !audioFeatures2] of the source is on two
    arrays, which are never falsy: its branch is dead and left out. *)
Definition determineWinner (w : world) (playlist1Id playlist2Id category : string)
  : async string :=
  let featureKey := lookup_category category in
  if negb (is_truthy featureKey) then mret "Invalid category"
  else
    try_catch
      (tracks1 ← getPlaylistTracks w playlist1Id;
       tracks2 ← getPlaylistTracks w playlist2Id;
       if (length tracks1 =? 0)%nat || (length tracks2 =? 0)%nat
       then mret "One of the playlists has no tracks."
       else
         audioFeatures1 ← getAudioFeatures w tracks1;
         audioFeatures2 ← getAudioFeatures w tracks2;
         let avgFeature1 := avgFeature featureKey audioFeatures1 in
         let avgFeature2 := avgFeature featureKey audioFeatures2 in
         let winner := verdict category avgFeature1 avgFeature2 in
         mret winner)
      (λ error,
         console_error "Error in determineWinner:";;
         mthrow (Error "Failed to determine winner")).

(** [handleSubmit] up to its last [setResult]: the value shown.  The
    statements that follow the [try] statement in the source (lines 183 to
    187) run after the result is set and are outside this model. *)
Definition handleSubmit (w : world) (playlist1 playlist2 category : string)
  : async string :=
  if negb (truthy (Some playlist1)) || negb (truthy (Some playlist2))
     || negb (truthy (Some category))
  then mret "Please fill in all fields!"
  else
    playlist1Id ← extractPlaylistId playlist1;
    playlist2Id ← extractPlaylistId playlist2;
    console_log "Playlist 1 ID:";;
    console_log "Playlist 2 ID:";;
    match playlist1Id, playlist2Id with
    | Some id1, Some id2 =>
        if negb (truthy playlist1Id) || negb (truthy playlist2Id)
        then mret "Invalid playlist link!"
        else
          try_catch
            (determineWinner w id1 id2 category)
            (λ error,
               console_error "Error in handleSubmit:";;
               mret "Error fetching playlist data!")
    | _, _ => mret "Invalid playlist link!"
    end.

End Category.

(** ** What the page shows (popularity version) *)

Module Page.

(** The block under the form: the cover image, when there is one, above the
    message. *)
Record shown := { cover : option string; text : string }.

(** [result.message] and [result.image] of the object in the state
    [result]; [image] is [undefined] on an object with [message] alone. *)
Definition message_of (r : Popularity.result) : string :=
  match r with
  | Popularity.WithPlaylist _ m => m
  | Popularity.MessageOnly m => m
  end.

Definition image_of (r : Popularity.result) : option string :=
  match r with
  | Popularity.WithPlaylist i _ => Some (Popularity.image i)
  | Popularity.MessageOnly _ => None
  end.

(** [{result.message && (<div> {result.image && <img .../>} <p>...</p>
    </div>)}]: nothing while the message is empty; the image only when
    [result.image] is truthy. *)
Definition render (r : Popularity.result) : option shown :=
  if truthy (Some (message_of r))
  then Some {| cover := if truthy (image_of r) then image_of r else None;
               text := message_of r |}
  else None.

(** The initial value of the state [result]. *)
Definition initial : Popularity.result := Popularity.blank EmptyString.

End Page.

(** ** Specification-side definitions *)

(** The sum [x1 + x2 + ... + xn] as an expression of the language reads:
    from the left, in doubles. *)
Definition sum_of (values : list float) : float :=
  match values with
  | [] => 0%float
  | x :: xs => fold_left PrimFloat.add xs x
  end.

(** The arithmetic mean of a list of values, [(x1 + x2 + ... + xn) / n]:
    their sum over their count. *)
Definition arithmetic_mean (values : list float) : float :=
  (sum_of values / length_number values)%float.

(** The expression matches at position [i] of [s] with capture [id]: the
    literal [playlist/] starts there and is followed by the 22 characters
    [id], all of the class. *)
Definition pattern_at (s : list ascii) (i : nat) (id : list ascii) : Prop :=
  ∃ rest, drop i s = (playlist_slash ++ id ++ rest)%list
          ∧ length id = 22%nat ∧ Forall (λ c, is_alnum c = true) id.

(** The literal [playlist/] occurs at position [i] of [s]. *)
Definition literal_at (s : list ascii) (i : nat) : Prop :=
  ∃ rest, drop i s = (playlist_slash ++ rest)%list.

(** The cached credential is usable: a token is stored, it is not the empty
    string, and the stored expiry (a [null] expiry compares as 0) is strictly
    after the current time. *)
Definition cache_valid (s : state) (tok : string) : Prop :=
  token s = Some tok ∧ tok ≠ "" ∧ now s < to_number (tokenExpirationTime s).

(** A submission is turned down before any network call: [run] ends with
    one of the two messages of the form validation, and the list of requests
    is the one of the state [s] it started from. *)
Definition rejected_before_network {A} (run : outcome A * state) (s : state)
    (invalid_link missing_field : A) : Prop :=
  (fst run = Return invalid_link ∨ fst run = Return missing_field)
  ∧ requests (snd run) = requests s.

(** Whenever a token is cached, an expiry is stored with it. *)
Definition cache_coherent (s : state) : Prop :=
  is_Some (token s) → is_Some (tokenExpirationTime s).

(** From [s] to [s'] the observable effects only accumulate: the requests
    and the console of [s] are the beginning of those of [s'], the clock has
    not gone back, and a coherent cache is still coherent. *)
Definition accumulates (s s' : state) : Prop :=
  requests s `prefix_of` requests s'
  ∧ console s `prefix_of` console s'
  ∧ now s ≤ now s'
  ∧ (cache_coherent s → cache_coherent s').

(** Whatever the outcome, [m] takes a state to one related to it by [R]. *)
Definition keeps {A} (R : relation state) (m : async A) : Prop :=
  ∀ s, R s (snd (m s)).

(** Whatever the outcome, [m] issues at most [k] requests. *)
Definition at_most {A} (k : nat) (m : async A) : Prop :=
  ∀ s, (length (requests (snd (m s))) ≤ length (requests s) + k)%nat.

(** The requests other than token exchanges, in the order they were
    issued. *)
Definition is_fetch (r : request) : bool :=
  match r with
  | PostToken => false
  | _ => true
  end.

Definition fetches (s : state) : list request := List.filter is_fetch (requests s).

(** Every failure of [m] is the error [e]. *)
Definition fails_only_with {A} (e : exn) (m : async A) : Prop :=
  ∀ s e' s', m s = (Throw e', s') → e' = e.

(** The run ends by throwing [e], and has issued no request beyond those of
    the state [s]. *)
Definition stops_at {A} (run : outcome A * state) (s : state) (e : exn) : Prop :=
  fst run = Throw e ∧ requests (snd run) = requests s.

(** ** Sample worlds *)

Module Sample.

Definition P1 : string := "37i9dQZF1DXcBWIGoYBM5M".
Definition P2 : string := "37i9dQZF1DX0XUsuxWHRQd".

Definition link (id : string) : string :=
  "https://open.spotify.com/playlist/" +:+ id +:+ "?si=abc".

Definition T (n : nat) : string :=
  "4uLU6hMCjMI75M1A2tKUQ" +:+ String (ascii_of_nat (65 + n)) "".

Definition popular (i : nat) (p : Z) : item :=
  {| track := Some {| track_id := Some (T i);
                      track_popularity := Some (of_uint63 (Uint63.of_Z p)) |} |}.

Definition tracks_of (playlistId : string) : list item :=
  if String.eqb playlistId P1 then [popular 0 10; popular 1 20; popular 2 30]
  else [popular 3 80; popular 4 90].

Definition cover (playlistId : string) : playlist_data :=
  if String.eqb playlistId P1
  then {| playlist_name := "Deep cuts";
          images := [ {| url := Some "https://i.scdn.co/image/p1" |} ] |}
  else {| playlist_name := "Top hits";
          images := [ {| url := Some "https://i.scdn.co/image/p2" |} ] |}.

Definition valence (v : float) : gmap string float := {[ "valence" := v ]}.

(** Playlist 1 has tracks [T 0 .. T 2], playlist 2 has [T 3; T 4]; the
    valence of the tracks is [v1] for the former and [v2] for the latter. *)
Definition features_of (v1 v2 : float) (ids : list string) : list (gmap string float) :=
  if bool_decide (T 0 ∈ ids) then [valence v1; valence v1; valence v1]
  else [valence v2; valence v2].

(** A service that answers every call. *)
Definition healthy (v1 v2 : float) : world :=
  {| latency := λ _, 120;
     token_endpoint := λ _, Ok {| access_token := "BQDtoken"; expires_in := 3600 |};
     playlist_endpoint := λ _ playlistId _, Ok (cover playlistId);
     tracks_endpoint := λ _ playlistId _, Ok {| items := Some (tracks_of playlistId) |};
     features_endpoint := λ _ ids _, Ok {| audio_features := Some (features_of v1 v2 ids) |} |}.

(** The same service, whose audio-features endpoint rejects with [status]. *)
Definition failing_features (status : option Z) : world :=
  {| latency := λ _, 120;
     token_endpoint := λ _, Ok {| access_token := "BQDtoken"; expires_in := 3600 |};
     playlist_endpoint := λ _ playlistId _, Ok (cover playlistId);
     tracks_endpoint := λ _ playlistId _, Ok {| items := Some (tracks_of playlistId) |};
     features_endpoint := λ _ _ _, Failed status |}.

(** The same service, whose playlists hold one entry: a track without an
    identifier. *)
Definition removed_tracks : world :=
  {| latency := λ _, 120;
     token_endpoint := λ _, Ok {| access_token := "BQDtoken"; expires_in := 3600 |};
     playlist_endpoint := λ _ playlistId _, Ok (cover playlistId);
     tracks_endpoint := λ _ _ _,
       Ok {| items := Some [ {| track := Some {| track_id := None; track_popularity := None |} |} ] |};
     features_endpoint := λ _ _ _, Failed None |}.

(** The page just loaded, at some time of the clock. *)
Definition fresh : state :=
  {| token := None; tokenExpirationTime := None; now := 1700000000000;
     requests := []; console := [] |}.

(** A token cached and still valid for a minute. *)
Definition warm : state :=
  {| token := Some "BQDtoken"; tokenExpirationTime := Some 1700000060000;
     now := 1700000000000; requests := []; console := [] |}.

(** The double nearest to the fraction [n / d] of two small naturals. *)
Definition q (n d : Z) : float :=
  (of_uint63 (Uint63.of_Z n) / of_uint63 (Uint63.of_Z d))%float.

End Sample.

(** ** More sample worlds *)

Module Scenario.

(** A service whose every call is rejected with [status]. *)
Definition down (status : option Z) : world :=
  {| latency := λ _, 30;
     token_endpoint := λ _, Failed status;
     playlist_endpoint := λ _ _ _, Failed status;
     tracks_endpoint := λ _ _ _, Failed status;
     features_endpoint := λ _ _ _, Failed status |}.

(** A service that hands out an empty access token. *)
Definition empty_token : world :=
  {| latency := λ _, 30;
     token_endpoint := λ _, Ok {| access_token := EmptyString; expires_in := 3600 |};
     playlist_endpoint := λ _ playlistId _, Ok (Sample.cover playlistId);
     tracks_endpoint := λ _ playlistId _,
       Ok {| items := Some (Sample.tracks_of playlistId) |};
     features_endpoint := λ _ _ _, Failed None |}.

(** A service whose playlists have no cover image. *)
Definition no_cover : world :=
  {| latency := λ _, 30;
     token_endpoint := λ _, Ok {| access_token := "BQDtoken"; expires_in := 3600 |};
     playlist_endpoint := λ _ _ _,
       Ok {| playlist_name := "Untitled"; images := [] |};
     tracks_endpoint := λ _ playlistId _,
       Ok {| items := Some (Sample.tracks_of playlistId) |};
     features_endpoint := λ _ _ _, Failed None |}.

(** A service whose two playlists have different tracks of the same average
    popularity: 10 and 30 for the first, 20 and 20 for the second. *)
Definition even : world :=
  {| latency := λ _, 30;
     token_endpoint := λ _, Ok {| access_token := "BQDtoken"; expires_in := 3600 |};
     playlist_endpoint := λ _ playlistId _, Ok (Sample.cover playlistId);
     tracks_endpoint := λ _ playlistId _,
       Ok {| items :=
               Some (if String.eqb playlistId Sample.P1
                     then [Sample.popular 0 10; Sample.popular 1 30]
                     else [Sample.popular 2 20; Sample.popular 3 20]) |};
     features_endpoint := λ _ _ _, Failed None |}.

(** A service that answers the audio-features call with one record per
    valence of [l1] for the tracks of the first playlist, and of [l2] for
    those of the second. *)
Definition valences (l1 l2 : list float) : world :=
  {| latency := λ _, 30;
     token_endpoint := λ _, Ok {| access_token := "BQDtoken"; expires_in := 3600 |};
     playlist_endpoint := λ _ playlistId _, Ok (Sample.cover playlistId);
     tracks_endpoint := λ _ playlistId _,
       Ok {| items := Some (Sample.tracks_of playlistId) |};
     features_endpoint := λ _ ids _,
       Ok {| audio_features :=
               Some (map Sample.valence
                       (if bool_decide (Sample.T 0 ∈ ids) then l1 else l2)) |} |}.

(** A service that answers the audio-features call with loudness [l1] for
    the tracks of the first playlist and [l2] for those of the second. *)
Definition loud (l1 l2 : float) : world :=
  {| latency := λ _, 30;
     token_endpoint := λ _, Ok {| access_token := "BQDtoken"; expires_in := 3600 |};
     playlist_endpoint := λ _ playlistId _, Ok (Sample.cover playlistId);
     tracks_endpoint := λ _ playlistId _,
       Ok {| items := Some (Sample.tracks_of playlistId) |};
     features_endpoint := λ _ ids _,
       Ok {| audio_features :=
               Some (if bool_decide (Sample.T 0 ∈ ids)
                     then [ {[ "loudness" := l1 ]} ]
                     else [ {[ "loudness" := l2 ]} ]) |} |}.

End Scenario.

(** * Properties *)

(** ** Running the async bodies *)

Lemma bind_return {A B} (m : async A) (f : A → async B) s a s' :
  m s = (Return a, s') → (m ≫= f) s = f a s'.
Proof. intros H. unfold mbind, async_bind. by rewrite H. Qed.

Lemma bind_throw {A B} (m : async A) (f : A → async B) s e s' :
  m s = (Throw e, s') → (m ≫= f) s = (Throw e, s').
Proof. intros H. unfold mbind, async_bind. by rewrite H. Qed.

Lemma try_return {A} (m : async A) h s a s' :
  m s = (Return a, s') → try_catch m h s = (Return a, s').
Proof. intros H. unfold try_catch. by rewrite H. Qed.

Lemma try_throw {A} (m : async A) h s e s' :
  m s = (Throw e, s') → try_catch m h s = h e s'.
Proof. intros H. unfold try_catch. by rewrite H. Qed.

(** A handler that logs and throws [e'] turns every failure into [e']. *)
Lemma try_rethrow {A} (m : async A) (h : exn → async A) e' s e s' :
  (∀ e0 s0, ∃ s1, h e0 s0 = (Throw e', s1)) →
  try_catch m h s = (Throw e, s') → e = e'.
Proof.
  intros Hh. unfold try_catch. destruct (m s) as [[a|e0] s0]; [done|].
  destruct (Hh e0 s0) as [s1 ->]. congruence.
Qed.

(** ** The regular expression *)

Lemma strip_prefix_Some p s rest :
  strip_prefix p s = Some rest ↔ s = (p ++ rest)%list.
Proof.
  revert s. induction p as [|a p IH]; intros s; simpl.
  - split; congruence.
  - destruct s as [|b s]; [split; discriminate|].
    destruct (Ascii.eqb_spec a b) as [->|Hne].
    + rewrite IH. split; congruence.
    + split; [discriminate|]. intros [= ? ?]. done.
Qed.

Lemma match_at_Some s id : match_at s = Some id ↔ pattern_at s 0 id.
Proof.
  unfold match_at, pattern_at. rewrite drop_0. split.
  - destruct (strip_prefix playlist_slash s) as [rest|] eqn:Hp; [|done].
    apply strip_prefix_Some in Hp.
    destruct (andb _ _) eqn:Hc; [|done]. intros [= <-].
    apply andb_true_iff in Hc as [Hl Ha].
    apply Nat.eqb_eq in Hl.
    exists (drop 22 rest). rewrite take_drop. split; [done|]. split; [done|].
    apply Forall_forall. intros c Hc.
    by apply (proj1 (forallb_forall is_alnum _) Ha).
  - intros (rest & -> & Hl & Ha).
    assert (strip_prefix playlist_slash (playlist_slash ++ id ++ rest)
            = Some (id ++ rest)%list) as -> by by apply strip_prefix_Some.
    rewrite take_app_length' by done. simpl.
    rewrite Hl. simpl.
    assert (forallb is_alnum id = true) as ->; [|done].
    apply forallb_forall. intros c Hc.
    by apply (proj1 (List.Forall_forall _ _) Ha).
Qed.

Lemma pattern_at_S c s i id : pattern_at (c :: s) (S i) id ↔ pattern_at s i id.
Proof. done. Qed.

Lemma pattern_at_nil i id : ¬ pattern_at [] i id.
Proof.
  intros (rest & H & _). rewrite drop_nil in H.
  by destruct (playlist_slash ++ id ++ rest)%list eqn:E.
Qed.

(** [regex_search] returns the capture of the leftmost match. *)
Lemma regex_search_Some s id :
  regex_search s = Some id ↔
  ∃ i, pattern_at s i id ∧ ∀ j id', (j < i)%nat → ¬ pattern_at s j id'.
Proof.
  revert id. induction s as [|c s IH]; intros id.
  - simpl. split; [done|]. intros (i & H & _). by apply pattern_at_nil in H.
  - cbn [regex_search]. destruct (match_at (c :: s)) as [id0|] eqn:Hm.
    + apply match_at_Some in Hm. split.
      * intros [= <-]. exists 0%nat. split; [done|]. intros; lia.
      * intros (i & Hi & Hfirst). destruct i as [|i].
        -- destruct Hm as (r1 & H1 & L1 & _), Hi as (r2 & H2 & L2 & _).
           rewrite H1 in H2. apply app_inv_head in H2.
           f_equal. by eapply app_inj_1 in H2 as [? _]; [|congruence].
        -- exfalso. by apply (Hfirst 0%nat id0); [lia|].
    + rewrite IH. split.
      * intros (i & Hi & Hfirst). exists (S i). split; [done|].
        intros [|j] id' Hj.
        -- intros Hp. apply match_at_Some in Hp. congruence.
        -- rewrite pattern_at_S. apply Hfirst. lia.
      * intros (i & Hi & Hfirst). destruct i as [|i].
        -- apply match_at_Some in Hi. congruence.
        -- exists i. split; [done|]. intros j id' Hj.
           rewrite <-(pattern_at_S c). apply Hfirst. lia.
Qed.

Lemma regex_search_None s :
  regex_search s = None ↔ ∀ i id, ¬ pattern_at s i id.
Proof.
  induction s as [|c s IH].
  - simpl. split; [|done]. intros _ i id. apply pattern_at_nil.
  - cbn [regex_search]. destruct (match_at (c :: s)) as [id0|] eqn:Hm.
    + split; [done|]. intros H. apply match_at_Some in Hm. by apply H in Hm.
    + rewrite IH. split.
      * intros H [|i] id.
        -- intros Hp. apply match_at_Some in Hp. congruence.
        -- rewrite pattern_at_S. apply H.
      * intros H i id. rewrite <-(pattern_at_S c). apply H.
Qed.

Lemma literal_at_strip s j :
  literal_at s j ↔ is_Some (strip_prefix playlist_slash (drop j s)).
Proof.
  unfold literal_at. split.
  - intros [rest H]. exists rest. by apply strip_prefix_Some.
  - intros [rest H]. exists rest. by apply strip_prefix_Some.
Qed.

Lemma pattern_at_literal s j id : pattern_at s j id → literal_at s j.
Proof. intros (rest & H & _). by exists (id ++ rest)%list. Qed.

(** ** [extractPlaylistId] and the form validation *)

Lemma extractPlaylistId_value url s :
  fst (extractPlaylistId url s) = Return (url_match url)
  ∧ requests (snd (extractPlaylistId url s)) = requests s.
Proof. unfold extractPlaylistId. by destruct (url_match url). Qed.

Lemma extractPlaylistId_match url s id :
  url_match url = Some id → extractPlaylistId url s = (Return (Some id), s).
Proof. intros H. unfold extractPlaylistId. by rewrite H. Qed.

Lemma url_match_Some url id :
  regex_search (list_ascii_of_string url) = Some id →
  url_match url = Some (string_of_list_ascii id).
Proof. intros H. unfold url_match. by rewrite H. Qed.

Lemma url_match_None url :
  regex_search (list_ascii_of_string url) = None ↔ url_match url = None.
Proof.
  unfold url_match. by destruct (regex_search (list_ascii_of_string url)).
Qed.

(** What [url_match] captures is never the empty string. *)
Lemma url_match_truthy url id : url_match url = Some id → truthy (Some id) = true.
Proof.
  unfold url_match.
  destruct (regex_search (list_ascii_of_string url)) as [l|] eqn:H; [|done].
  intros [= <-]. apply regex_search_Some in H as (i & (rest & _ & Hl & _) & _).
  destruct l; [done|]. reflexivity.
Qed.

Lemma print_requests l s : requests (snd (print l s)) = requests s.
Proof. done. Qed.

(** The popularity version turns the submission down without a request as
    soon as one of the two links has no match. *)
Lemma Popularity_handleSubmit_rejects w playlist1 playlist2 s :
  url_match playlist1 = None ∨ url_match playlist2 = None →
  rejected_before_network (Popularity.handleSubmit w playlist1 playlist2 s) s
    (Popularity.blank "Invalid playlist link!")
    (Popularity.blank "Please fill in all fields!").
Proof.
  intros Hno. unfold rejected_before_network, Popularity.handleSubmit.
  destruct (negb (truthy (Some playlist1)) || negb (truthy (Some playlist2)));
    [by split; [right|]|].
  unfold extractPlaylistId, mbind, async_bind, mret, async_ret, console_log,
    console_error, print.
  destruct (url_match playlist1) as [id1|] eqn:H1,
           (url_match playlist2) as [id2|] eqn:H2; simpl;
    try (by split; [left|]).
  by destruct Hno.
Qed.

Lemma Category_handleSubmit_rejects w playlist1 playlist2 category s :
  url_match playlist1 = None ∨ url_match playlist2 = None →
  rejected_before_network
    (Category.handleSubmit w playlist1 playlist2 category s) s
    "Invalid playlist link!" "Please fill in all fields!".
Proof.
  intros Hno. unfold rejected_before_network, Category.handleSubmit.
  destruct (negb (truthy (Some playlist1)) || negb (truthy (Some playlist2))
            || negb (truthy (Some category)));
    [by split; [right|]|].
  unfold extractPlaylistId, mbind, async_bind, mret, async_ret, console_log,
    console_error, print.
  destruct (url_match playlist1) as [id1|] eqn:H1,
           (url_match playlist2) as [id2|] eqn:H2; simpl;
    try (by split; [left|]).
  by destruct Hno.
Qed.

(** C7. For every link: when the pattern [playlist/<22 alphanumeric
    characters>] occurs in it, extraction returns an identifier embedded that
    way, namely the one of the leftmost occurrence (and leaves the state
    alone); when the pattern does not occur, extraction returns [null], and
    both versions of [handleSubmit] turn the submission down without any
    network call, whichever of the two fields the link was typed in. *)
Theorem extractPlaylistId_pattern (url : string) (s : state) :
  let u := list_ascii_of_string url in
  (∀ i id, pattern_at u i id →
     ∃ i' id', (i' ≤ i)%nat ∧ pattern_at u i' id'
       ∧ extractPlaylistId url s = (Return (Some (string_of_list_ascii id')), s))
  ∧ (∀ i id, pattern_at u i id →
       (∀ j id', (j < i)%nat → ¬ pattern_at u j id') →
       extractPlaylistId url s = (Return (Some (string_of_list_ascii id)), s))
  ∧ ((∀ i id, ¬ pattern_at u i id) →
       fst (extractPlaylistId url s) = Return None
       ∧ requests (snd (extractPlaylistId url s)) = requests s
       ∧ ∀ w other category,
           rejected_before_network (Popularity.handleSubmit w url other s) s
             (Popularity.blank "Invalid playlist link!")
             (Popularity.blank "Please fill in all fields!")
           ∧ rejected_before_network (Popularity.handleSubmit w other url s) s
               (Popularity.blank "Invalid playlist link!")
               (Popularity.blank "Please fill in all fields!")
           ∧ rejected_before_network
               (Category.handleSubmit w url other category s) s
               "Invalid playlist link!" "Please fill in all fields!"
           ∧ rejected_before_network
               (Category.handleSubmit w other url category s) s
               "Invalid playlist link!" "Please fill in all fields!").
Proof.
  intros u. split; [|split].
  - intros i id Hi.
    destruct (regex_search u) as [id'|] eqn:Hs.
    + pose proof Hs as (i' & Hi' & Hfirst)%regex_search_Some.
      exists i', id'. split; [|split; [done|]].
      * destruct (decide (i' ≤ i)%nat) as [|Hgt]; [done|].
        exfalso. apply (Hfirst i id); [lia|done].
      * by apply extractPlaylistId_match, url_match_Some.
    + exfalso. by eapply regex_search_None in Hs.
  - intros i id Hi Hfirst.
    apply extractPlaylistId_match, url_match_Some, regex_search_Some. eauto.
  - intros Hno.
    assert (url_match url = None) as Hnone
      by by apply url_match_None, regex_search_None.
    destruct (extractPlaylistId_value url s) as [Hv Hr].
    rewrite Hv, Hr, Hnone. split; [done|]. split; [done|].
    intros w other category.
    repeat split;
      first [ apply Popularity_handleSubmit_rejects
            | apply Category_handleSubmit_rejects
            | idtac ]; auto.
Qed.

(** C10. When the first occurrence of [playlist/] in a link is followed by
    more than 22 characters of the class, extraction does not reject the
    link: it returns the first 22 characters of that run. *)
Theorem extractPlaylistId_long_run (url : string) (s : state)
    (i : nat) (run rest : list ascii) :
  let u := list_ascii_of_string url in
  drop i u = (playlist_slash ++ run ++ rest)%list →
  (∀ j, (j < i)%nat → ¬ literal_at u j) →
  Forall (λ c, is_alnum c = true) run →
  (22 < length run)%nat →
  extractPlaylistId url s
  = (Return (Some (string_of_list_ascii (take 22 run))), s).
Proof.
  intros u Hdrop Hfirst Hrun Hlen.
  apply extractPlaylistId_match, url_match_Some, regex_search_Some.
  exists i. split.
  - exists (drop 22 run ++ rest)%list. split; [|split].
    + fold u. rewrite Hdrop. by rewrite (assoc_L (++) (take 22 run)), take_drop.
    + rewrite length_take. lia.
    + by apply Forall_take.
  - intros j id' Hj Hp. apply (Hfirst j Hj). by eapply pattern_at_literal.
Qed.

Lemma extractPlaylistId_pattern_witness :
  extractPlaylistId (Sample.link Sample.P1) Sample.fresh
  = (Return (Some Sample.P1), Sample.fresh)
  ∧ fst (extractPlaylistId "https://open.spotify.com/album/4aawyAB9vmqN3uQ7FjRGTy"
           Sample.fresh) = Return None.
Proof.
  split.
  - apply (proj1 (proj2 (extractPlaylistId_pattern
                           (Sample.link Sample.P1) Sample.fresh))
             25%nat (list_ascii_of_string Sample.P1)).
    + exists (list_ascii_of_string "?si=abc").
      split; [reflexivity|]. split; [reflexivity|].
      repeat (constructor; [reflexivity|]). constructor.
    + intros j id' Hj Hp. apply pattern_at_literal, literal_at_strip in Hp.
      do 25 (destruct j as [|j]; [vm_compute in Hp; by destruct Hp|]). lia.
  - apply (proj2 (proj2 (extractPlaylistId_pattern
             "https://open.spotify.com/album/4aawyAB9vmqN3uQ7FjRGTy"
             Sample.fresh))).
    apply regex_search_None. vm_compute. reflexivity.
Defined.

Lemma extractPlaylistId_long_run_witness :
  extractPlaylistId
    "https://open.spotify.com/playlist/37i9dQZF1DXcBWIGoYBM5Mextra" Sample.fresh
  = (Return (Some "37i9dQZF1DXcBWIGoYBM5M"), Sample.fresh).
Proof.
  apply (extractPlaylistId_long_run
           "https://open.spotify.com/playlist/37i9dQZF1DXcBWIGoYBM5Mextra"
           Sample.fresh 25
           (list_ascii_of_string "37i9dQZF1DXcBWIGoYBM5Mextra") []).
  - reflexivity.
  - intros j Hj Hp. apply literal_at_strip in Hp.
    do 25 (destruct j as [|j]; [vm_compute in Hp; by destruct Hp|]). lia.
  - repeat (constructor; [reflexivity|]). constructor.
  - simpl. lia.
Defined.

(** ** The credential cache *)

Lemma truthy_Some tok : truthy (Some tok) = true ↔ tok ≠ "".
Proof.
  simpl. rewrite negb_true_iff. apply String.eqb_neq.
Qed.

(** The exchange as a whole: one request, and on success the cache holds the
    new token and the expiry computed from the clock after the answer. *)
Lemma exchange_run w s :
  let n := length (requests s) in
  exchange w s =
  match token_endpoint w n with
  | Ok data =>
      (Return (access_token data),
       {| token := Some (access_token data);
          tokenExpirationTime :=
            Some (now s + latency w n + expires_in data * 1000);
          now := now s + latency w n;
          requests := requests s ++ [PostToken];
          console := console s ++ [Log "New token generated:"] |})
  | Failed status =>
      (Throw (Error "Failed to get access token"),
       {| token := token s;
          tokenExpirationTime := tokenExpirationTime s;
          now := now s + latency w n;
          requests := requests s ++ [PostToken];
          console := console s ++ [LogError "Error fetching token:"] |})
  end.
Proof.
  unfold exchange, try_catch, await, mbind, async_bind. simpl.
  by destruct (token_endpoint w (length (requests s))).
Qed.

Lemma getToken_run w s :
  getToken w s =
  if truthy (token s) && bool_decide (now s < to_number (tokenExpirationTime s))
  then (Return (default "" (token s)), s)
  else exchange w s.
Proof.
  unfold getToken, read, Date_now, mbind, async_bind, mret, async_ret. simpl.
  destruct (token s) as [tok|]; [|done].
  by destruct (_ && _).
Qed.

Lemma cache_valid_test s :
  truthy (token s) && bool_decide (now s < to_number (tokenExpirationTime s)) = true
  ↔ ∃ tok, cache_valid s tok.
Proof.
  unfold cache_valid. rewrite andb_true_iff, bool_decide_eq_true. split.
  - intros [Ht Hlt]. destruct (token s) as [tok|]; [|done].
    exists tok. by apply truthy_Some in Ht.
  - intros (tok & -> & Hne & Hlt). by rewrite truthy_Some.
Qed.

(** C8. When a token is cached and its stored expiry is strictly in the
    future, [getToken] returns it, issues no request and leaves the state as
    it was.  Otherwise it issues exactly one request, the token exchange;
    when the exchange succeeds, the returned token is cached with an expiry
    of the time of the answer plus [expires_in] seconds (the clock is in
    milliseconds); when it fails, [getToken] throws and the cache is left
    as it was. *)
Theorem getToken_cache_policy (w : world) (s : state) :
  (∀ tok, cache_valid s tok → getToken w s = (Return tok, s))
  ∧ ((∀ tok, ¬ cache_valid s tok) →
       let n := length (requests s) in
       let s' := snd (getToken w s) in
       requests s' = requests s ++ [PostToken]
       ∧ now s' = now s + latency w n
       ∧ match token_endpoint w n with
         | Ok data =>
             fst (getToken w s) = Return (access_token data)
             ∧ token s' = Some (access_token data)
             ∧ tokenExpirationTime s' = Some (now s' + expires_in data * 1000)
         | Failed _ =>
             fst (getToken w s) = Throw (Error "Failed to get access token")
             ∧ token s' = token s
             ∧ tokenExpirationTime s' = tokenExpirationTime s
         end).
Proof.
  rewrite getToken_run. split.
  - intros tok Hv.
    assert (∃ t, cache_valid s t) as ->%cache_valid_test by eauto.
    destruct Hv as (-> & _). done.
  - intros Hno.
    destruct (truthy (token s) && _) eqn:Ht.
    { apply cache_valid_test in Ht as [tok Hv]. by apply Hno in Hv. }
    rewrite exchange_run. simpl.
    by destruct (token_endpoint w (length (requests s))).
Qed.

Lemma getToken_cache_policy_witness :
  getToken (Sample.healthy 0 0) Sample.warm = (Return "BQDtoken", Sample.warm)
  ∧ requests (snd (getToken (Sample.healthy 0 0) Sample.fresh)) = [PostToken]
  ∧ tokenExpirationTime (snd (getToken (Sample.healthy 0 0) Sample.fresh))
    = Some (1700000000120 + 3600 * 1000).
Proof.
  split.
  - apply (proj1 (getToken_cache_policy (Sample.healthy 0 0) Sample.warm)).
    split; [reflexivity|]. split; [discriminate|]. simpl. lia.
  - assert (∀ tok, ¬ cache_valid Sample.fresh tok) as Hno.
    { intros tok (Hc & _). discriminate Hc. }
    pose proof (proj2 (getToken_cache_policy (Sample.healthy 0 0) Sample.fresh) Hno)
      as (Hreq & Hnow & _ & _ & Hexp).
    split; [exact Hreq|]. rewrite Hexp, Hnow. reflexivity.
Defined.

(** ** The playlist fetcher *)

Lemma Popularity_getPlaylistTracks_result w playlistId s tok s1 data :
  getToken w s = (Return tok, s1) →
  tracks_endpoint w (length (requests s1)) playlistId tok = Ok data →
  fst (Popularity.getPlaylistTracks w playlistId s) =
    match items data with
    | None | Some [] => Throw (Error "Failed to fetch playlist data")
    | Some its =>
        Return (omap Popularity.to_entry (List.filter Popularity.has_track_id its))
    end.
Proof.
  intros Htok Hdata.
  unfold Popularity.getPlaylistTracks, try_catch, mbind, async_bind.
  rewrite Htok. unfold await. rewrite Hdata. simpl.
  by destruct (items data) as [[|it its]|].
Qed.

Lemma Category_getPlaylistTracks_result w playlistId s tok s1 data :
  getToken w s = (Return tok, s1) →
  tracks_endpoint w (length (requests s1)) playlistId tok = Ok data →
  fst (Category.getPlaylistTracks w playlistId s) =
    match items data with
    | None | Some [] => Throw (Error "Failed to fetch playlist data")
    | Some its =>
        match Category.track_ids its with
        | Some ids => Return (Category.filter_Boolean ids)
        | None => Throw (Error "Failed to fetch playlist data")
        end
    end.
Proof.
  intros Htok Hdata.
  unfold Category.getPlaylistTracks, try_catch, mbind, async_bind.
  rewrite Htok. unfold await. rewrite Hdata. simpl.
  destruct (items data) as [[|it its]|]; try done.
  change (length (it :: its) =? 0)%nat with false. cbv iota.
  by destruct (Category.track_ids (it :: its)).
Qed.

(** In the popularity version every failure inside [determineWinner] leaves
    it as the same error, and an empty first track list is such a failure. *)
Lemma Popularity_determineWinner_empty w playlist1Id playlist2Id s :
  fst (Popularity.getPlaylistTracks w playlist1Id s) = Return [] →
  fst (Popularity.determineWinner w playlist1Id playlist2Id s)
  = Throw (Error "Failed to determine winner").
Proof.
  intros H. unfold Popularity.determineWinner, try_catch, mbind, async_bind.
  destruct (Popularity.getPlaylistTracks w playlist1Id s) as [[t1|e1] s1];
    simpl in H; [|done].
  injection H as ->.
  destruct (Popularity.getPlaylistTracks w playlist2Id s1) as [[t2|e2] s2];
    [|done].
  destruct (Popularity.getPlaylistInfo w playlist1Id s2) as [[i1|e3] s3];
    [|done].
  by destruct (Popularity.getPlaylistInfo w playlist2Id s3) as [[i2|e4] s4].
Qed.

(** In the category version an empty first track list ends the comparison
    with a message (or with the error of a later failure). *)
Lemma Category_determineWinner_empty w playlist1Id playlist2Id category s :
  Category.is_truthy (Category.lookup_category category) = true →
  fst (Category.getPlaylistTracks w playlist1Id s) = Return [] →
  fst (Category.determineWinner w playlist1Id playlist2Id category s)
  = Return "One of the playlists has no tracks."
  ∨ fst (Category.determineWinner w playlist1Id playlist2Id category s)
    = Throw (Error "Failed to determine winner").
Proof.
  intros Hc H. unfold Category.determineWinner. rewrite Hc. simpl.
  unfold try_catch, mbind, async_bind.
  destruct (Category.getPlaylistTracks w playlist1Id s) as [[t1|e1] s1];
    simpl in H; [|done].
  injection H as ->.
  destruct (Category.getPlaylistTracks w playlist2Id s1) as [[t2|e2] s2];
    [by left|by right].
Qed.

Lemma Popularity_determineWinner_empty_second w id1 id2 s t1 s1 :
  Popularity.getPlaylistTracks w id1 s = (Return t1, s1) →
  fst (Popularity.getPlaylistTracks w id2 s1) = Return [] →
  fst (Popularity.determineWinner w id1 id2 s)
  = Throw (Error "Failed to determine winner").
Proof.
  intros H1 H2. unfold Popularity.determineWinner, try_catch, mbind, async_bind.
  rewrite H1.
  destruct (Popularity.getPlaylistTracks w id2 s1) as [[t2|e2] s2];
    simpl in H2; [|done].
  injection H2 as ->.
  destruct (Popularity.getPlaylistInfo w id1 s2) as [[i1|e3] s3]; [|done].
  destruct (Popularity.getPlaylistInfo w id2 s3) as [[i2|e4] s4]; [|done].
  by rewrite orb_true_r.
Qed.

Lemma Category_determineWinner_empty_second w id1 id2 category s t1 s1 :
  Category.is_truthy (Category.lookup_category category) = true →
  Category.getPlaylistTracks w id1 s = (Return t1, s1) →
  fst (Category.getPlaylistTracks w id2 s1) = Return [] →
  fst (Category.determineWinner w id1 id2 category s)
  = Return "One of the playlists has no tracks.".
Proof.
  intros Hc H1 H2. unfold Category.determineWinner. rewrite Hc.
  cbn beta iota delta [negb].
  unfold try_catch, mbind, async_bind. rewrite H1.
  destruct (Category.getPlaylistTracks w id2 s1) as [[t2|e2] s2];
    simpl in H2; [|done].
  injection H2 as ->. by rewrite orb_true_r.
Qed.

(** C2, as the code has it.  Once the token is there and the endpoint has
    answered, [getPlaylistTracks] fails when the answer has no [items] or an
    empty list of them.  The emptiness test comes before the filter: for a
    non-empty list (in the category version, one whose entries all have a
    track) it returns the filtered list, which is the empty list when the
    filter removes every entry.  That empty list is turned down one level
    up, by [determineWinner], whichever of the two playlists it comes from:
    with an error in the popularity version, with a message in the category
    version (or with the error of a later failure). *)
Theorem getPlaylistTracks_emptiness_test
    (w : world) (playlistId : string) (s s1 : state) (tok : string)
    (data : tracks_data) :
  getToken w s = (Return tok, s1) →
  tracks_endpoint w (length (requests s1)) playlistId tok = Ok data →
  (items data = None ∨ items data = Some [] →
     fst (Popularity.getPlaylistTracks w playlistId s)
     = Throw (Error "Failed to fetch playlist data")
     ∧ fst (Category.getPlaylistTracks w playlistId s)
       = Throw (Error "Failed to fetch playlist data"))
  ∧ (∀ its,
       items data = Some its → its ≠ [] →
       fst (Popularity.getPlaylistTracks w playlistId s)
       = Return (omap Popularity.to_entry (List.filter Popularity.has_track_id its))
       ∧ ∀ ids,
           Category.track_ids its = Some ids →
           fst (Category.getPlaylistTracks w playlistId s)
           = Return (Category.filter_Boolean ids))
  ∧ (∀ other,
       fst (Popularity.getPlaylistTracks w playlistId s) = Return [] →
       fst (Popularity.determineWinner w playlistId other s)
       = Throw (Error "Failed to determine winner"))
  ∧ (∀ other s0 tracks,
       Popularity.getPlaylistTracks w other s0 = (Return tracks, s) →
       fst (Popularity.getPlaylistTracks w playlistId s) = Return [] →
       fst (Popularity.determineWinner w other playlistId s0)
       = Throw (Error "Failed to determine winner"))
  ∧ (∀ other category,
       Category.is_truthy (Category.lookup_category category) = true →
       fst (Category.getPlaylistTracks w playlistId s) = Return [] →
       fst (Category.determineWinner w playlistId other category s)
       = Return "One of the playlists has no tracks."
       ∨ fst (Category.determineWinner w playlistId other category s)
         = Throw (Error "Failed to determine winner"))
  ∧ (∀ other category s0 tracks,
       Category.is_truthy (Category.lookup_category category) = true →
       Category.getPlaylistTracks w other s0 = (Return tracks, s) →
       fst (Category.getPlaylistTracks w playlistId s) = Return [] →
       fst (Category.determineWinner w other playlistId category s0)
       = Return "One of the playlists has no tracks.").
Proof.
  intros Htok Hdata.
  pose proof (Popularity_getPlaylistTracks_result _ _ _ _ _ _ Htok Hdata) as Hp.
  pose proof (Category_getPlaylistTracks_result _ _ _ _ _ _ Htok Hdata) as Hc.
  repeat apply conj.
  - intros [E|E]; rewrite E in Hp, Hc; done.
  - intros its E Hne. rewrite E in Hp, Hc. destruct its as [|it its]; [done|].
    split; [done|]. intros ids Hids. by rewrite Hids in Hc.
  - intros other. apply Popularity_determineWinner_empty.
  - intros other s0 tracks. apply Popularity_determineWinner_empty_second.
  - intros other category. apply Category_determineWinner_empty.
  - intros other category s0 tracks. apply Category_determineWinner_empty_second.
Qed.

Lemma getPlaylistTracks_emptiness_test_witness :
  fst (Popularity.getPlaylistTracks Sample.removed_tracks Sample.P1 Sample.fresh)
  = Return []
  ∧ fst (Category.getPlaylistTracks Sample.removed_tracks Sample.P1 Sample.fresh)
    = Return []
  ∧ fst (Popularity.determineWinner Sample.removed_tracks Sample.P1 Sample.P2
           Sample.fresh)
    = Throw (Error "Failed to determine winner").
Proof.
  pose proof (getPlaylistTracks_emptiness_test Sample.removed_tracks Sample.P1
                Sample.fresh
                (snd (getToken Sample.removed_tracks Sample.fresh)) "BQDtoken"
                {| items := Some [ {| track := Some {| track_id := None;
                                                       track_popularity := None |} |} ] |}
                eq_refl eq_refl) as (_ & Hits & Hd & _).
  destruct (Hits _ eq_refl) as [Hp Hc]; [discriminate|].
  split; [exact Hp|]. split; [exact (Hc _ eq_refl)|]. apply Hd. exact Hp.
Defined.

(** C2, as stated, fails: the answer below has one entry, which the filter
    removes, and both versions return the empty list as a success. *)
Lemma getPlaylistTracks_returns_empty_list :
  List.filter Popularity.has_track_id
    [ {| track := Some {| track_id := None; track_popularity := None |} |} ] = []
  ∧ fst (Popularity.getPlaylistTracks Sample.removed_tracks Sample.P1 Sample.fresh)
    = Return []
  ∧ fst (Category.getPlaylistTracks Sample.removed_tracks Sample.P1 Sample.fresh)
    = Return [].
Proof. split; [reflexivity|]. split; vm_compute; reflexivity. Qed.

(** ** The metric fetcher *)

(** Whatever goes wrong in [getAudioFeatures], the caller gets the same
    error. *)
Lemma getAudioFeatures_one_error w trackIds s e s' :
  Category.getAudioFeatures w trackIds s = (Throw e, s') →
  e = Error "Failed to fetch audio features".
Proof.
  unfold Category.getAudioFeatures. apply try_rethrow.
  intros e0 s0. unfold mbind, async_bind, mthrow, async_throw.
  destruct (Category.is_rate_limit e0); eexists; reflexivity.
Qed.

(** What [getAudioFeatures] returns is never the empty list. *)
Lemma getAudioFeatures_nonempty w trackIds s features s' :
  Category.getAudioFeatures w trackIds s = (Return features, s') →
  features ≠ [].
Proof.
  unfold Category.getAudioFeatures, try_catch, mbind, async_bind.
  destruct (getToken w s) as [[tok|e] s1];
    [|by destruct (Category.is_rate_limit e)].
  destruct (length (List.filter Category.valid_track_id trackIds) =? 0)%nat;
    [done|].
  unfold await.
  destruct (features_endpoint w _ _ _) as [data|status]; simpl.
  - destruct (audio_features data) as [[|f fs]|]; simpl; try done.
    by intros [= <- _].
  - by destruct status as [status|]; [destruct (status =? 429)|].
Qed.

(** C3, as the code has it.  When the token is there, some identifier is
    valid and the audio-features endpoint rejects the request, whatever the
    status, [getAudioFeatures] throws [Error("Failed to fetch audio
    features")]; status 429 changes only the line written to the console.
    Every failure of [getAudioFeatures] reaches the caller as that one
    error. *)
Theorem getAudioFeatures_upstream_error
    (w : world) (trackIds : list string) (s s1 : state) (tok : string)
    (status : option Z) :
  let validTrackIds := List.filter Category.valid_track_id trackIds in
  getToken w s = (Return tok, s1) →
  validTrackIds ≠ [] →
  features_endpoint w (length (requests s1)) validTrackIds tok = Failed status →
  Category.getAudioFeatures w trackIds s
  = (Throw (Error "Failed to fetch audio features"),
     {| token := token s1;
        tokenExpirationTime := tokenExpirationTime s1;
        now := now s1 + latency w (length (requests s1));
        requests := requests s1 ++ [GetAudioFeatures validTrackIds tok];
        console :=
          console s1
          ++ [LogError (if bool_decide (status = Some 429)
                        then "Rate limit exceeded. Please try again later."
                        else "Error fetching audio features:")] |})
  ∧ (∀ w' trackIds' s0 e s',
       Category.getAudioFeatures w' trackIds' s0 = (Throw e, s') →
       e = Error "Failed to fetch audio features").
Proof.
  intros valid Htok Hvalid Hfail. split.
  - unfold Category.getAudioFeatures, try_catch, mbind, async_bind.
    rewrite Htok. fold valid.
    destruct valid as [|v vs] eqn:Ev; [done|].
    change (length (v :: vs) =? 0)%nat with false. cbv iota.
    unfold await. rewrite Hfail. simpl.
    case_bool_decide as Hs.
    + by rewrite Hs.
    + destruct status as [status|]; [|done].
      destruct (Z.eqb_spec status 429) as [->|]; done.
  - intros w' trackIds' s0 e s'. apply getAudioFeatures_one_error.
Qed.

Lemma getAudioFeatures_upstream_error_witness :
  fst (Category.getAudioFeatures (Sample.failing_features (Some 429))
         [Sample.T 0] Sample.fresh)
  = Throw (Error "Failed to fetch audio features")
  ∧ console (snd (Category.getAudioFeatures (Sample.failing_features (Some 429))
                    [Sample.T 0] Sample.fresh))
    = [Log "New token generated:";
       LogError "Rate limit exceeded. Please try again later."].
Proof.
  pose proof (getAudioFeatures_upstream_error (Sample.failing_features (Some 429))
                [Sample.T 0] Sample.fresh
                (snd (getToken (Sample.failing_features (Some 429)) Sample.fresh))
                "BQDtoken" (Some 429) eq_refl) as H.
  destruct H as [H _]; [discriminate|reflexivity|].
  rewrite H. split; reflexivity.
Defined.

(** C3, as stated, fails: a rejection with status 429 and one with status
    500 reach the caller as the same thrown value. *)
Lemma rate_limit_not_distinguished :
  fst (Category.getAudioFeatures (Sample.failing_features (Some 429))
         [Sample.T 0] Sample.fresh)
  = fst (Category.getAudioFeatures (Sample.failing_features (Some 500))
           [Sample.T 0] Sample.fresh)
  ∧ fst (Category.getAudioFeatures (Sample.failing_features (Some 429))
           [Sample.T 0] Sample.fresh)
    = Throw (Error "Failed to fetch audio features").
Proof. split; vm_compute; reflexivity. Qed.

(** ** Doubles *)

(** These facts are read off the specification of the primitive floats:
    the comparison of two doubles is defined by cases on their decoded
    form. *)

Lemma SFcompare_antisym x y : SFcompare y x = CompOpp <$> SFcompare x y.
Proof.
  destruct x as [sx|sx| |sx mx ex], y as [sy|sy| |sy my ey]; simpl;
    repeat match goal with b : bool |- _ => destruct b end; simpl; try done.
  - rewrite (Z.compare_antisym ey ex). destruct (ey ?= ex)%Z; simpl; try done.
    by rewrite (Pos.compare_cont_antisym mx my Eq).
  - rewrite (Z.compare_antisym ey ex). destruct (ey ?= ex)%Z; simpl; try done.
    by rewrite (Pos.compare_cont_antisym mx my Eq).
Qed.

Lemma SFcompare_refl x : SFcompare x x = Some Eq ∨ SFcompare x x = None.
Proof.
  destruct x as [sx|sx| |sx mx ex]; simpl; auto.
  - left. by destruct sx.
  - left. f_equal. rewrite Z.compare_refl.
    destruct sx; by rewrite Pos.compare_cont_refl.
Qed.

Lemma SFcompare_None x y :
  SFcompare x y = None → SFcompare x x = None ∨ SFcompare y y = None.
Proof.
  destruct x as [sx|sx| |sx mx ex], y as [sy|sy| |sy my ey]; simpl; auto;
    repeat match goal with b : bool |- _ => destruct b end; done.
Qed.

(** No number is less than itself. *)
Lemma num_lt_irrefl a : num_lt a a = false.
Proof.
  unfold num_lt. rewrite FloatAxioms.ltb_spec. unfold SFltb.
  by destruct (SFcompare_refl (Prim2SF a)) as [-> | ->].
Qed.

(** [a < b] excludes [b < a]. *)
Lemma num_lt_asym a b : num_lt a b = true → num_lt b a = false.
Proof.
  unfold num_lt. rewrite !FloatAxioms.ltb_spec. unfold SFltb.
  rewrite (SFcompare_antisym (Prim2SF a)).
  by destruct (SFcompare (Prim2SF a) (Prim2SF b)) as [[]|].
Qed.

(** [a == b] excludes both [a < b] and [b < a]. *)
Lemma num_eq_not_lt a b :
  (a =? b)%float = true → num_lt a b = false ∧ num_lt b a = false.
Proof.
  unfold num_lt. rewrite FloatAxioms.eqb_spec, !FloatAxioms.ltb_spec.
  unfold SFeqb, SFltb. rewrite (SFcompare_antisym (Prim2SF a)).
  by destruct (SFcompare (Prim2SF a) (Prim2SF b)) as [[]|].
Qed.

(** Two numbers that are not [NaN] and are not equal are ordered. *)
Lemma num_lt_trichotomy a b :
  is_nan a = false → is_nan b = false → (a =? b)%float = false →
  num_lt a b = true ∨ num_lt b a = true.
Proof.
  unfold is_nan, num_lt. intros Ha%negb_false_iff Hb%negb_false_iff.
  rewrite FloatAxioms.eqb_spec in Ha, Hb.
  rewrite FloatAxioms.eqb_spec, !FloatAxioms.ltb_spec.
  unfold SFeqb, SFltb in *. rewrite (SFcompare_antisym (Prim2SF a)).
  destruct (SFcompare (Prim2SF a) (Prim2SF b)) as [[]|] eqn:E; simpl; auto.
  apply SFcompare_None in E as [E|E]; [by rewrite E in Ha|by rewrite E in Hb].
Qed.

(** Adding a value read through [x || 0] to the initial [0] of the sum gives
    that value: it is never [-0]. *)
Lemma zero_plus v : (0 + or_zero v)%float = or_zero v.
Proof.
  destruct v as [x|]; simpl; [|reflexivity].
  destruct (falsy x) eqn:F; [reflexivity|].
  apply Prim2SF_inj. rewrite FloatAxioms.add_spec.
  unfold falsy in F. apply orb_false_iff in F as [F _].
  rewrite FloatAxioms.eqb_spec in F.
  change (Prim2SF 0) with (S754_zero false) in *.
  unfold SF64add. by destruct (Prim2SF x) as [[]| | |].
Qed.

(** ** The mean *)

Lemma fold_left_sum {A} (f : A → float) (l : list A) (a : float) :
  fold_left (λ sum t, (sum + f t)%float) l a = fold_left PrimFloat.add (map f l) a.
Proof. revert a. induction l as [|x l IH]; intros a; simpl; [done|]. apply IH. Qed.

(** The sum that [reduce] computes from the initial [0] is the sum of the
    values read through [x || 0], on a list that is not empty. *)
Lemma reduce_sum {A} (v : A → option float) (t : A) (ts : list A) :
  fold_left (λ sum t, (sum + or_zero (v t))%float) (t :: ts) 0%float
  = sum_of (map (λ t, or_zero (v t)) (t :: ts)).
Proof. simpl. rewrite zero_plus. apply (fold_left_sum (λ t, or_zero (v t))). Qed.

Lemma calculateAveragePopularity_mean tracks :
  tracks ≠ [] →
  Popularity.calculateAveragePopularity tracks
  = arithmetic_mean (map (λ t, or_zero (Popularity.popularity t)) tracks).
Proof.
  intros Hne. unfold Popularity.calculateAveragePopularity, arithmetic_mean.
  destruct tracks as [|t ts]; [done|].
  change (length (t :: ts) =? 0)%nat with false. cbv iota zeta.
  rewrite (reduce_sum Popularity.popularity). unfold length_number.
  by rewrite length_map.
Qed.

Lemma avgFeature_mean featureKey features :
  features ≠ [] →
  Category.avgFeature featureKey features
  = arithmetic_mean
      (map (λ t : gmap string float,
              or_zero (t !! Category.property_key featureKey))
           features).
Proof.
  intros Hne. unfold Category.avgFeature, arithmetic_mean.
  destruct features as [|t ts]; [done|]. cbv zeta.
  rewrite (reduce_sum (λ t : gmap string float,
                         t !! Category.property_key featureKey)).
  unfold length_number. by rewrite length_map.
Qed.


(** ** The comparator *)

Section PopularityPipeline.

Variables (w : world) (playlist1Id playlist2Id : string).
Variables (s0 s1 s2 s3 s4 : state).
Variables (tracks1 tracks2 : list Popularity.track_entry).
Variables (info1 info2 : Popularity.info).

(** The four fetches of [determineWinner] succeed, in the order of the
    source, and both playlists have a track. *)
Hypothesis fetch_tracks1 :
  Popularity.getPlaylistTracks w playlist1Id s0 = (Return tracks1, s1).
Hypothesis fetch_tracks2 :
  Popularity.getPlaylistTracks w playlist2Id s1 = (Return tracks2, s2).
Hypothesis fetch_info1 :
  Popularity.getPlaylistInfo w playlist1Id s2 = (Return info1, s3).
Hypothesis fetch_info2 :
  Popularity.getPlaylistInfo w playlist2Id s3 = (Return info2, s4).
Hypothesis some_track1 : tracks1 ≠ [].
Hypothesis some_track2 : tracks2 ≠ [].

Lemma Popularity_determineWinner_run :
  Popularity.determineWinner w playlist1Id playlist2Id s0
  = (Return
       (if num_gt (Popularity.calculateAveragePopularity tracks1)
                  (Popularity.calculateAveragePopularity tracks2)
        then Popularity.WithPlaylist info2 (Popularity.underground info2)
        else if num_lt (Popularity.calculateAveragePopularity tracks1)
                       (Popularity.calculateAveragePopularity tracks2)
        then Popularity.WithPlaylist info1 (Popularity.underground info1)
        else Popularity.MessageOnly "Both playlists are equally underground!"),
     s4).
Proof.
  unfold Popularity.determineWinner.
  apply try_return.
  rewrite (bind_return _ _ _ _ _ fetch_tracks1).
  rewrite (bind_return _ _ _ _ _ fetch_tracks2).
  rewrite (bind_return _ _ _ _ _ fetch_info1).
  rewrite (bind_return _ _ _ _ _ fetch_info2).
  destruct tracks1 as [|a1 l1]; [done|].
  destruct tracks2 as [|a2 l2]; [done|].
  reflexivity.
Qed.

(** The same, in terms of the arithmetic means of the popularities. *)
Lemma Popularity_determineWinner_means :
  let mean1 :=
    arithmetic_mean (map (λ t, or_zero (Popularity.popularity t)) tracks1) in
  let mean2 :=
    arithmetic_mean (map (λ t, or_zero (Popularity.popularity t)) tracks2) in
  Popularity.determineWinner w playlist1Id playlist2Id s0
  = (Return
       (if num_gt mean1 mean2
        then Popularity.WithPlaylist info2 (Popularity.underground info2)
        else if num_lt mean1 mean2
        then Popularity.WithPlaylist info1 (Popularity.underground info1)
        else Popularity.MessageOnly "Both playlists are equally underground!"),
     s4).
Proof.
  intros mean1 mean2. rewrite Popularity_determineWinner_run.
  by rewrite !calculateAveragePopularity_mean.
Qed.

(** The popularity version on a tie: the result carries the message alone,
    and names neither playlist. *)
Lemma Popularity_tie :
  (arithmetic_mean (map (λ t, or_zero (Popularity.popularity t)) tracks1)
   =? arithmetic_mean (map (λ t, or_zero (Popularity.popularity t)) tracks2))%float
  = true →
  Popularity.determineWinner w playlist1Id playlist2Id s0
  = (Return (Popularity.MessageOnly "Both playlists are equally underground!"),
     s4).
Proof.
  intros [H1 H2]%num_eq_not_lt. rewrite Popularity_determineWinner_means.
  unfold num_gt. by rewrite H1, H2.
Qed.

Lemma Popularity_lower_first :
  num_lt (arithmetic_mean (map (λ t, or_zero (Popularity.popularity t)) tracks1))
         (arithmetic_mean (map (λ t, or_zero (Popularity.popularity t)) tracks2))
  = true →
  Popularity.determineWinner w playlist1Id playlist2Id s0
  = (Return (Popularity.WithPlaylist info1 (Popularity.underground info1)), s4).
Proof.
  intros Hlt. rewrite Popularity_determineWinner_means.
  unfold num_gt. by rewrite (num_lt_asym _ _ Hlt), Hlt.
Qed.

Lemma Popularity_lower_second :
  num_lt (arithmetic_mean (map (λ t, or_zero (Popularity.popularity t)) tracks2))
         (arithmetic_mean (map (λ t, or_zero (Popularity.popularity t)) tracks1))
  = true →
  Popularity.determineWinner w playlist1Id playlist2Id s0
  = (Return (Popularity.WithPlaylist info2 (Popularity.underground info2)), s4).
Proof.
  intros Hlt. rewrite Popularity_determineWinner_means.
  unfold num_gt. by rewrite Hlt.
Qed.

End PopularityPipeline.

(** How [getPlaylistInfo] reads the answer: the name, and the address of the
    first image, or the empty string when there is none. *)
Lemma getPlaylistInfo_result w playlistId s tok s1 data :
  getToken w s = (Return tok, s1) →
  playlist_endpoint w (length (requests s1)) playlistId tok = Ok data →
  fst (Popularity.getPlaylistInfo w playlistId s)
  = Return {| Popularity.name := playlist_name data;
              Popularity.image :=
                default "" (head (images data) ≫= url) |}.
Proof.
  intros Htok Hdata.
  unfold Popularity.getPlaylistInfo, try_catch, mbind at 1 2, async_bind.
  rewrite Htok. unfold await. rewrite Hdata. simpl.
  destruct (images data) as [|[[u|]] imgs]; try done.
  simpl. by destruct (u =? "")%string eqn:E; [apply String.eqb_eq in E as ->|].
Qed.

(** C4. In the popularity version, when the four fetches succeed and both
    playlists have a track, the result carries the name and the cover image
    of the playlist whose average popularity, the arithmetic mean of the
    popularities of its tracks, is strictly lower, with the message that
    names it.  Two averages that are numbers and are not equal are always in
    one of these two cases. *)
Theorem underground_playlist_is_highlighted
    (w : world) (playlist1Id playlist2Id : string) (s0 s1 s2 s3 s4 : state)
    (tracks1 tracks2 : list Popularity.track_entry)
    (info1 info2 : Popularity.info) :
  Popularity.getPlaylistTracks w playlist1Id s0 = (Return tracks1, s1) →
  Popularity.getPlaylistTracks w playlist2Id s1 = (Return tracks2, s2) →
  Popularity.getPlaylistInfo w playlist1Id s2 = (Return info1, s3) →
  Popularity.getPlaylistInfo w playlist2Id s3 = (Return info2, s4) →
  tracks1 ≠ [] →
  tracks2 ≠ [] →
  let mean1 :=
    arithmetic_mean (map (λ t, or_zero (Popularity.popularity t)) tracks1) in
  let mean2 :=
    arithmetic_mean (map (λ t, or_zero (Popularity.popularity t)) tracks2) in
  ((mean1 <? mean2)%float = true →
     Popularity.determineWinner w playlist1Id playlist2Id s0
     = (Return
          (Popularity.WithPlaylist info1
             (Popularity.name info1
              +:+ " is more underground, smell some good taste in there!")),
        s4))
  ∧ ((mean2 <? mean1)%float = true →
       Popularity.determineWinner w playlist1Id playlist2Id s0
       = (Return
            (Popularity.WithPlaylist info2
               (Popularity.name info2
                +:+ " is more underground, smell some good taste in there!")),
          s4))
  ∧ (is_nan mean1 = false → is_nan mean2 = false →
     (mean1 =? mean2)%float = false →
     (mean1 <? mean2)%float = true ∨ (mean2 <? mean1)%float = true).
Proof.
  intros H1 H2 H3 H4 Hn1 Hn2 mean1 mean2. split; [|split].
  - intros Hlt. by eapply Popularity_lower_first.
  - intros Hlt. by eapply Popularity_lower_second.
  - apply num_lt_trichotomy.
Qed.

Lemma underground_playlist_is_highlighted_witness :
  arithmetic_mean [10; 20; 30]%float = 20%float
  ∧ arithmetic_mean [80; 90]%float = 85%float
  ∧ Popularity.determineWinner (Sample.healthy 0 0) Sample.P1 Sample.P2 Sample.fresh
    = (Return
         (Popularity.WithPlaylist
            {| Popularity.name := "Deep cuts";
               Popularity.image := "https://i.scdn.co/image/p1" |}
            "Deep cuts is more underground, smell some good taste in there!"),
       snd (Popularity.determineWinner (Sample.healthy 0 0) Sample.P1 Sample.P2
              Sample.fresh)).
Proof.
  split; [reflexivity|]. split; [reflexivity|].
  set (w := Sample.healthy 0 0).
  set (s1 := snd (Popularity.getPlaylistTracks w Sample.P1 Sample.fresh)).
  set (s2 := snd (Popularity.getPlaylistTracks w Sample.P2 s1)).
  set (s3 := snd (Popularity.getPlaylistInfo w Sample.P1 s2)).
  set (s4 := snd (Popularity.getPlaylistInfo w Sample.P2 s3)).
  set (entry i p := {| Popularity.id := Sample.T i;
                       Popularity.popularity := Some p |}).
  pose proof (underground_playlist_is_highlighted w Sample.P1 Sample.P2
                Sample.fresh s1 s2 s3 s4
                [entry 0%nat 10%float; entry 1%nat 20%float; entry 2%nat 30%float]
                [entry 3%nat 80%float; entry 4%nat 90%float]
                {| Popularity.name := "Deep cuts";
                   Popularity.image := "https://i.scdn.co/image/p1" |}
                {| Popularity.name := "Top hits";
                   Popularity.image := "https://i.scdn.co/image/p2" |}) as H.
  destruct H as [H _].
  - vm_compute. reflexivity.
  - vm_compute. reflexivity.
  - vm_compute. reflexivity.
  - vm_compute. reflexivity.
  - discriminate.
  - discriminate.
  - rewrite H; [vm_compute; reflexivity|]. vm_compute. reflexivity.
Defined.

Section CategoryPipeline.

Variables (w : world) (playlist1Id playlist2Id category : string).
Variables (s0 s1 s2 s3 s4 : state).
Variables (tracks1 tracks2 : list string).
Variables (audioFeatures1 audioFeatures2 : list (gmap string float)).

(** The category passes the test of [determineWinner], the four fetches
    succeed in the order of the source, and both playlists have a track. *)
Hypothesis category_passes :
  Category.is_truthy (Category.lookup_category category) = true.
Hypothesis fetch_tracks1 :
  Category.getPlaylistTracks w playlist1Id s0 = (Return tracks1, s1).
Hypothesis fetch_tracks2 :
  Category.getPlaylistTracks w playlist2Id s1 = (Return tracks2, s2).
Hypothesis some_track1 : tracks1 ≠ [].
Hypothesis some_track2 : tracks2 ≠ [].
Hypothesis fetch_features1 :
  Category.getAudioFeatures w tracks1 s2 = (Return audioFeatures1, s3).
Hypothesis fetch_features2 :
  Category.getAudioFeatures w tracks2 s3 = (Return audioFeatures2, s4).

Lemma Category_determineWinner_run :
  Category.determineWinner w playlist1Id playlist2Id category s0
  = (Return
       (Category.verdict category
          (Category.avgFeature (Category.lookup_category category) audioFeatures1)
          (Category.avgFeature (Category.lookup_category category) audioFeatures2)),
     s4).
Proof.
  unfold Category.determineWinner. rewrite category_passes. simpl negb. cbv iota.
  apply try_return.
  rewrite (bind_return _ _ _ _ _ fetch_tracks1).
  rewrite (bind_return _ _ _ _ _ fetch_tracks2).
  destruct tracks1 as [|a1 l1]; [done|].
  destruct tracks2 as [|a2 l2]; [done|].
  change ((length (a1 :: l1) =? 0)%nat || (length (a2 :: l2) =? 0)%nat)
    with false. cbv iota.
  rewrite (bind_return _ _ _ _ _ fetch_features1).
  rewrite (bind_return _ _ _ _ _ fetch_features2).
  reflexivity.
Qed.

End CategoryPipeline.

(** The category version has no case for a tie: on equal means it names
    playlist 2, whatever the category. *)
Lemma Category_verdict_tie category m :
  Category.verdict category m m
  = if String.eqb category "Sadder" then "Playlist 2 is sadder"
    else "Playlist 2 is more " +:+ toLowerCase category.
Proof.
  unfold Category.verdict, num_gt. rewrite num_lt_irrefl. done.
Qed.

(** C1 on the code.  In the category version two equal means do not give a
    result of their own: [determineWinner] declares playlist 2 the winner.
    Here both playlists have valence 1/2 on every track and the category is
    "Happier"; the same holds for every category and every common mean. *)
Theorem category_tie_declares_playlist_2 :
  fst (Category.determineWinner
         (Sample.healthy (Sample.q 1 2) (Sample.q 1 2))
         Sample.P1 Sample.P2 "Happier" Sample.fresh)
  = Return "Playlist 2 is more happier"
  ∧ fst (Category.determineWinner
           (Sample.healthy (Sample.q 1 2) (Sample.q 1 2))
           Sample.P1 Sample.P2 "Sadder" Sample.fresh)
    = Return "Playlist 2 is sadder"
  ∧ (∀ category m,
       Category.verdict category m m
       = if String.eqb category "Sadder" then "Playlist 2 is sadder"
         else "Playlist 2 is more " +:+ toLowerCase category).
Proof.
  split; [vm_compute; reflexivity|]. split; [vm_compute; reflexivity|].
  apply Category_verdict_tie.
Qed.

(** C5. Under the category "Sadder", when the fetches succeed and both
    playlists have a track, the playlist whose mean valence, the arithmetic
    mean of the valence of its tracks, is strictly lower is reported as the
    sadder one. *)
Theorem sadder_lower_mean_wins
    (w : world) (playlist1Id playlist2Id : string) (s0 s1 s2 s3 s4 : state)
    (tracks1 tracks2 : list string)
    (audioFeatures1 audioFeatures2 : list (gmap string float)) :
  Category.getPlaylistTracks w playlist1Id s0 = (Return tracks1, s1) →
  Category.getPlaylistTracks w playlist2Id s1 = (Return tracks2, s2) →
  tracks1 ≠ [] →
  tracks2 ≠ [] →
  Category.getAudioFeatures w tracks1 s2 = (Return audioFeatures1, s3) →
  Category.getAudioFeatures w tracks2 s3 = (Return audioFeatures2, s4) →
  let mean1 :=
    arithmetic_mean
      (map (λ t : gmap string float, or_zero (t !! "valence")) audioFeatures1) in
  let mean2 :=
    arithmetic_mean
      (map (λ t : gmap string float, or_zero (t !! "valence")) audioFeatures2) in
  ((mean1 <? mean2)%float = true →
     Category.determineWinner w playlist1Id playlist2Id "Sadder" s0
     = (Return "Playlist 1 is sadder", s4))
  ∧ ((mean2 <? mean1)%float = true →
       Category.determineWinner w playlist1Id playlist2Id "Sadder" s0
       = (Return "Playlist 2 is sadder", s4)).
Proof.
  intros Ht1 Ht2 Hn1 Hn2 Hf1 Hf2 mean1 mean2.
  rewrite (Category_determineWinner_run w playlist1Id playlist2Id "Sadder"
             s0 s1 s2 s3 s4 tracks1 tracks2 audioFeatures1 audioFeatures2)
    by done.
  rewrite !avgFeature_mean by by eapply getAudioFeatures_nonempty.
  change (Category.property_key (Category.lookup_category "Sadder"))
    with "valence".
  fold mean1 mean2. unfold Category.verdict. simpl String.eqb. cbv iota.
  split; intros Hlt.
  - unfold num_lt. by rewrite Hlt.
  - by rewrite (num_lt_asym mean2 mean1 Hlt).
Qed.

Lemma sadder_lower_mean_wins_witness :
  arithmetic_mean [Sample.q 1 10; Sample.q 3 10] = Sample.q 2 10
  ∧ arithmetic_mean [Sample.q 7 10; Sample.q 9 10] = Sample.q 8 10
  ∧ fst (Category.determineWinner
           (Scenario.valences [Sample.q 1 10; Sample.q 3 10]
                              [Sample.q 7 10; Sample.q 9 10])
           Sample.P1 Sample.P2 "Sadder" Sample.fresh)
    = Return "Playlist 1 is sadder".
Proof.
  split; [reflexivity|]. split; [reflexivity|].
  set (w := Scenario.valences [Sample.q 1 10; Sample.q 3 10]
                              [Sample.q 7 10; Sample.q 9 10]).
  set (s1 := snd (Category.getPlaylistTracks w Sample.P1 Sample.fresh)).
  set (s2 := snd (Category.getPlaylistTracks w Sample.P2 s1)).
  set (t1 := [Sample.T 0; Sample.T 1; Sample.T 2]).
  set (t2 := [Sample.T 3; Sample.T 4]).
  set (s3 := snd (Category.getAudioFeatures w t1 s2)).
  set (s4 := snd (Category.getAudioFeatures w t2 s3)).
  pose proof (sadder_lower_mean_wins w Sample.P1 Sample.P2
                Sample.fresh s1 s2 s3 s4 t1 t2
                (map Sample.valence [Sample.q 1 10; Sample.q 3 10])
                (map Sample.valence [Sample.q 7 10; Sample.q 9 10])) as H.
  destruct H as [H _].
  - vm_compute. reflexivity.
  - vm_compute. reflexivity.
  - discriminate.
  - discriminate.
  - vm_compute. reflexivity.
  - vm_compute. reflexivity.
  - rewrite H; [reflexivity|]. vm_compute. reflexivity.
Defined.

(** ** The category test *)

(** A label that is neither a key of [categoryMapping] nor the name of a
    property of [Object.prototype] is turned down at once: the plain string
    is returned, nothing is thrown, and the state (its requests, its
    console, its cache) is untouched. *)
Lemma unlisted_category_is_invalid w playlist1Id playlist2Id category s :
  Category.categoryMapping !! category = None →
  category ∉ Category.Object_prototype →
  Category.determineWinner w playlist1Id playlist2Id category s
  = (Return "Invalid category", s).
Proof.
  intros Hown Hproto. unfold Category.determineWinner, Category.lookup_category.
  rewrite Hown. by rewrite bool_decide_eq_false_2.
Qed.

Lemma empty_category_is_invalid w playlist1Id playlist2Id s :
  Category.determineWinner w playlist1Id playlist2Id "" s
  = (Return "Invalid category", s).
Proof. reflexivity. Qed.

(** The six labels of the mapping pass the test, with their feature key. *)
Lemma listed_category_passes category featureKey :
  Category.categoryMapping !! category = Some featureKey →
  Category.lookup_category category = Category.Str featureKey
  ∧ Category.is_truthy (Category.lookup_category category) = true.
Proof.
  intros H. unfold Category.lookup_category. rewrite H. split; [done|].
  unfold Category.categoryMapping in H.
  apply elem_of_list_to_map_2 in H.
  repeat (apply elem_of_cons in H as [[= -> ->]|H]; [done|]).
  by apply elem_of_nil in H.
Qed.

(** Every name inherited from [Object.prototype] passes the test, although
    none of them is a key of the mapping. *)
Lemma inherited_names_pass category :
  category ∈ Category.Object_prototype →
  Category.categoryMapping !! category = None
  ∧ Category.is_truthy (Category.lookup_category category) = true.
Proof.
  unfold Category.Object_prototype. intros H.
  repeat (apply elem_of_cons in H as [->|H]; [by vm_compute|]).
  by apply elem_of_nil in H.
Qed.

(** C9 on the code.  The label "constructor" is not a key of
    [categoryMapping], yet [categoryMapping["constructor"]] is the function
    inherited from [Object.prototype], which is truthy: [determineWinner]
    does not return "Invalid category", it fetches both playlists and their
    features and returns a verdict. *)
Theorem inherited_name_passes_category_test :
  Category.categoryMapping !! "constructor" = None
  ∧ Category.lookup_category "constructor" = Category.Builtin "constructor"
  ∧ fst (Category.determineWinner (Sample.healthy 0 0) Sample.P1 Sample.P2
           "constructor" Sample.fresh)
    = Return "Playlist 2 is more constructor"
  ∧ requests (snd (Category.determineWinner (Sample.healthy 0 0)
                     Sample.P1 Sample.P2 "constructor" Sample.fresh))
    = [ PostToken;
        GetPlaylistTracks Sample.P1 "BQDtoken";
        GetPlaylistTracks Sample.P2 "BQDtoken";
        GetAudioFeatures [Sample.T 0; Sample.T 1; Sample.T 2] "BQDtoken";
        GetAudioFeatures [Sample.T 3; Sample.T 4] "BQDtoken" ].
Proof. repeat split; vm_compute; reflexivity. Qed.

(** * Further properties of the code *)

(** ** Effects only accumulate *)

Section Steps.

Context {R : relation state} `{!PreOrder R}.

Lemma keeps_ret {A} (a : A) : keeps R (mret a).
Proof. intros s. reflexivity. Qed.

Lemma keeps_throw {A} (e : exn) : keeps R (mthrow e : async A).
Proof. intros s. reflexivity. Qed.

Lemma keeps_read {A} (f : state → A) : keeps R (read f).
Proof. intros s. reflexivity. Qed.

Lemma keeps_bind {A B} (m : async A) (f : A → async B) :
  keeps R m → (∀ a, keeps R (f a)) → keeps R (m ≫= f).
Proof.
  intros Hm Hf s. unfold mbind, async_bind.
  specialize (Hm s). destruct (m s) as [[a|e] s1]; simpl in *; [|done].
  by transitivity s1; [|apply Hf].
Qed.

Lemma keeps_try {A} (m : async A) (h : exn → async A) :
  keeps R m → (∀ e, keeps R (h e)) → keeps R (try_catch m h).
Proof.
  intros Hm Hh s. unfold try_catch.
  specialize (Hm s). destruct (m s) as [[a|e] s1]; simpl in *; [done|].
  by transitivity s1; [|apply Hh].
Qed.

End Steps.

#[local] Instance accumulates_preorder : PreOrder accumulates.
Proof.
  split.
  - intros s. by repeat split.
  - intros s1 s2 s3 (Hr1 & Hc1 & Hn1 & Hk1) (Hr2 & Hc2 & Hn2 & Hk2).
    repeat split; [by etrans|by etrans|lia|auto].
Qed.

Lemma keeps_print l : keeps accumulates (print l).
Proof.
  intros s. repeat split; simpl; [done|by apply prefix_app_r|lia|done].
Qed.

Lemma keeps_await {A} w r (answer : nat → http A) :
  (∀ n, 0 ≤ latency w n) → keeps accumulates (await w r answer).
Proof.
  intros Hw s. unfold await.
  destruct (answer (length (requests s))); simpl;
    (repeat split; simpl; [by apply prefix_app_r|done|specialize (Hw (length (requests s))); lia|done]).
Qed.

Lemma keeps_exchange w : (∀ n, 0 ≤ latency w n) → keeps accumulates (exchange w).
Proof.
  intros Hw s. rewrite exchange_run. simpl.
  specialize (Hw (length (requests s))).
  destruct (token_endpoint w (length (requests s))); simpl;
    (repeat split; simpl; [by apply prefix_app_r|by apply prefix_app_r|lia|]);
    [by eexists|done].
Qed.

Lemma keeps_getToken w : (∀ n, 0 ≤ latency w n) → keeps accumulates (getToken w).
Proof.
  intros Hw s. rewrite getToken_run.
  destruct (_ && _); [reflexivity|by apply keeps_exchange].
Qed.

(** The combinators above, applied as far as they go. *)
Ltac keeps_steps :=
  repeat first
    [ apply keeps_ret | apply keeps_throw | apply keeps_read
    | apply keeps_print | by apply keeps_await | by apply keeps_getToken
    | apply keeps_bind; [|intros ?]
    | apply keeps_try; [|intros ?]
    | match goal with
      | |- keeps _ (match ?x with _ => _ end) => destruct x
      end
    | progress cbv zeta ].

Lemma keeps_extractPlaylistId url : keeps accumulates (extractPlaylistId url).
Proof. unfold extractPlaylistId, console_error. keeps_steps. Qed.

Section WorldSteps.

Variable w : world.
Hypothesis latency_nonneg : ∀ n, 0 ≤ latency w n.

Lemma keeps_getPlaylistInfo p : keeps accumulates (Popularity.getPlaylistInfo w p).
Proof.
  unfold Popularity.getPlaylistInfo, console_log, console_error. keeps_steps.
Qed.

Lemma keeps_Popularity_getPlaylistTracks p :
  keeps accumulates (Popularity.getPlaylistTracks w p).
Proof.
  unfold Popularity.getPlaylistTracks, console_log, console_error. keeps_steps.
Qed.

Lemma keeps_Category_getPlaylistTracks p :
  keeps accumulates (Category.getPlaylistTracks w p).
Proof.
  unfold Category.getPlaylistTracks, console_log, console_error. keeps_steps.
Qed.

Lemma keeps_getAudioFeatures ids : keeps accumulates (Category.getAudioFeatures w ids).
Proof.
  unfold Category.getAudioFeatures, console_log, console_error. keeps_steps.
Qed.

Lemma keeps_Popularity_determineWinner p1 p2 :
  keeps accumulates (Popularity.determineWinner w p1 p2).
Proof.
  unfold Popularity.determineWinner, console_error.
  repeat first
    [ apply keeps_Popularity_getPlaylistTracks | apply keeps_getPlaylistInfo
    | progress keeps_steps ].
Qed.

Lemma keeps_Category_determineWinner p1 p2 category :
  keeps accumulates (Category.determineWinner w p1 p2 category).
Proof.
  unfold Category.determineWinner, console_error.
  repeat first
    [ apply keeps_Category_getPlaylistTracks | apply keeps_getAudioFeatures
    | progress keeps_steps ].
Qed.

Lemma keeps_Popularity_handleSubmit l1 l2 :
  keeps accumulates (Popularity.handleSubmit w l1 l2).
Proof.
  unfold Popularity.handleSubmit, console_log, console_error.
  repeat first
    [ apply keeps_Popularity_determineWinner | apply keeps_extractPlaylistId
    | progress keeps_steps ].
Qed.

Lemma keeps_Category_handleSubmit l1 l2 category :
  keeps accumulates (Category.handleSubmit w l1 l2 category).
Proof.
  unfold Category.handleSubmit, console_log, console_error.
  repeat first
    [ apply keeps_Category_determineWinner | apply keeps_extractPlaylistId
    | progress keeps_steps ].
Qed.

End WorldSteps.

(** Every function of both versions only adds to the requests and to the
    console, never moves the clock back (the latencies of the world being
    non-negative), and leaves a coherent cache coherent; this holds whether
    the function returns or throws. *)
Theorem effects_accumulate (w : world) :
  (∀ n, 0 ≤ latency w n) →
  keeps accumulates (getToken w)
  ∧ (∀ playlistId, keeps accumulates (Popularity.getPlaylistInfo w playlistId))
  ∧ (∀ playlistId, keeps accumulates (Popularity.getPlaylistTracks w playlistId))
  ∧ (∀ playlistId, keeps accumulates (Category.getPlaylistTracks w playlistId))
  ∧ (∀ trackIds, keeps accumulates (Category.getAudioFeatures w trackIds))
  ∧ (∀ id1 id2, keeps accumulates (Popularity.determineWinner w id1 id2))
  ∧ (∀ id1 id2 category,
       keeps accumulates (Category.determineWinner w id1 id2 category))
  ∧ (∀ link1 link2, keeps accumulates (Popularity.handleSubmit w link1 link2))
  ∧ (∀ link1 link2 category,
       keeps accumulates (Category.handleSubmit w link1 link2 category)).
Proof.
  intros Hw. repeat apply conj; intros.
  - by apply keeps_getToken.
  - by apply keeps_getPlaylistInfo.
  - by apply keeps_Popularity_getPlaylistTracks.
  - by apply keeps_Category_getPlaylistTracks.
  - by apply keeps_getAudioFeatures.
  - by apply keeps_Popularity_determineWinner.
  - by apply keeps_Category_determineWinner.
  - by apply keeps_Popularity_handleSubmit.
  - by apply keeps_Category_handleSubmit.
Qed.

Lemma effects_accumulate_witness :
  accumulates Sample.warm
    (snd (Popularity.handleSubmit (Sample.healthy 0 0)
            (Sample.link Sample.P1) (Sample.link Sample.P2) Sample.warm))
  ∧ accumulates Sample.fresh
      (snd (Category.determineWinner (Scenario.down (Some 503))
              Sample.P1 Sample.P2 "Louder" Sample.fresh)).
Proof.
  split.
  - assert (∀ n, 0 ≤ latency (Sample.healthy 0 0) n) as Hw
      by (intros n; simpl; lia).
    apply (effects_accumulate (Sample.healthy 0 0) Hw).
  - assert (∀ n, 0 ≤ latency (Scenario.down (Some 503)) n) as Hw
      by (intros n; simpl; lia).
    apply (effects_accumulate (Scenario.down (Some 503)) Hw).
Defined.

(** ** The number of requests *)

Lemma at_most_weaken {A} (k k' : nat) (m : async A) :
  (k ≤ k')%nat → at_most k m → at_most k' m.
Proof. intros Hk Hm s. specialize (Hm s). lia. Qed.

Lemma at_most_ret {A} (a : A) : at_most 0 (mret a).
Proof. intros s. simpl. lia. Qed.

Lemma at_most_throw {A} (e : exn) : at_most 0 (mthrow e : async A).
Proof. intros s. simpl. lia. Qed.

Lemma at_most_read {A} (f : state → A) : at_most 0 (read f).
Proof. intros s. simpl. lia. Qed.

Lemma at_most_print l : at_most 0 (print l).
Proof. intros s. simpl. lia. Qed.

Lemma at_most_await {A} w r (answer : nat → http A) : at_most 1 (await w r answer).
Proof.
  intros s. unfold await. destruct (answer _); simpl; rewrite length_app; simpl; lia.
Qed.

Lemma at_most_bind {A B} (k1 k2 : nat) (m : async A) (f : A → async B) :
  at_most k1 m → (∀ a, at_most k2 (f a)) → at_most (k1 + k2) (m ≫= f).
Proof.
  intros Hm Hf s. unfold mbind, async_bind.
  specialize (Hm s). destruct (m s) as [[a|e] s1]; simpl in *; [|lia].
  specialize (Hf a s1). lia.
Qed.

Lemma at_most_try {A} (k1 k2 : nat) (m : async A) (h : exn → async A) :
  at_most k1 m → (∀ e, at_most k2 (h e)) → at_most (k1 + k2) (try_catch m h).
Proof.
  intros Hm Hh s. unfold try_catch.
  specialize (Hm s). destruct (m s) as [[a|e] s1]; simpl in *; [lia|].
  specialize (Hh e s1). lia.
Qed.

(** The parts of a body that issue no request. *)
Ltac no_request :=
  repeat first
    [ apply at_most_ret | apply at_most_throw | apply at_most_read
    | apply at_most_print
    | apply (at_most_bind 0 0); [|intros ?]
    | apply (at_most_try 0 0); [|intros ?]
    | match goal with
      | |- at_most _ (match ?x with _ => _ end) => destruct x
      end
    | progress cbv zeta ].

Lemma at_most_exchange w : at_most 1 (exchange w).
Proof.
  intros s. rewrite exchange_run.
  destruct (token_endpoint w _); simpl; rewrite length_app; simpl; lia.
Qed.

Lemma at_most_getToken w : at_most 1 (getToken w).
Proof.
  intros s. rewrite getToken_run.
  destruct (_ && _); [simpl; lia|apply at_most_exchange].
Qed.

Lemma at_most_extractPlaylistId url : at_most 0 (extractPlaylistId url).
Proof. unfold extractPlaylistId, console_error. no_request. Qed.

Lemma at_most_getPlaylistInfo w p : at_most 2 (Popularity.getPlaylistInfo w p).
Proof.
  unfold Popularity.getPlaylistInfo, console_log, console_error.
  apply (at_most_try 2 0); [|intros ?; no_request].
  apply (at_most_bind 1 1); [apply at_most_getToken|intros tok].
  apply (at_most_bind 1 0); [apply at_most_await|intros response].
  no_request.
Qed.

Lemma at_most_Popularity_getPlaylistTracks w p :
  at_most 2 (Popularity.getPlaylistTracks w p).
Proof.
  unfold Popularity.getPlaylistTracks, console_log, console_error.
  apply (at_most_try 2 0); [|intros ?; no_request].
  apply (at_most_bind 1 1); [apply at_most_getToken|intros tok].
  apply (at_most_bind 1 0); [apply at_most_await|intros response].
  no_request.
Qed.

Lemma at_most_Category_getPlaylistTracks w p :
  at_most 2 (Category.getPlaylistTracks w p).
Proof.
  unfold Category.getPlaylistTracks, console_log, console_error.
  apply (at_most_try 2 0); [|intros ?; no_request].
  apply (at_most_bind 1 1); [apply at_most_getToken|intros tok].
  apply (at_most_bind 1 0); [apply at_most_await|intros response].
  no_request.
Qed.

Lemma at_most_getAudioFeatures w ids : at_most 2 (Category.getAudioFeatures w ids).
Proof.
  unfold Category.getAudioFeatures, console_log, console_error.
  apply (at_most_try 2 0); [|intros ?; no_request].
  apply (at_most_bind 1 1); [apply at_most_getToken|intros tok]. cbv zeta.
  destruct (_ =? _)%nat; [apply (at_most_weaken 0); [lia|no_request]|].
  apply (at_most_bind 1 0); [apply at_most_await|intros response].
  no_request.
Qed.

Lemma at_most_Popularity_determineWinner w id1 id2 :
  at_most 8 (Popularity.determineWinner w id1 id2).
Proof.
  unfold Popularity.determineWinner, console_error.
  apply (at_most_try 8 0); [|intros ?; no_request].
  apply (at_most_bind 2 6); [apply at_most_Popularity_getPlaylistTracks|intros t1].
  apply (at_most_bind 2 4); [apply at_most_Popularity_getPlaylistTracks|intros t2].
  apply (at_most_bind 2 2); [apply at_most_getPlaylistInfo|intros i1].
  apply (at_most_bind 2 0); [apply at_most_getPlaylistInfo|intros i2].
  no_request.
Qed.

Lemma at_most_Category_determineWinner w id1 id2 category :
  at_most 8 (Category.determineWinner w id1 id2 category).
Proof.
  unfold Category.determineWinner, console_error. cbv zeta.
  destruct (negb _); [apply (at_most_weaken 0); [lia|no_request]|].
  apply (at_most_try 8 0); [|intros ?; no_request].
  apply (at_most_bind 2 6); [apply at_most_Category_getPlaylistTracks|intros t1].
  apply (at_most_bind 2 4); [apply at_most_Category_getPlaylistTracks|intros t2].
  destruct (_ || _); [apply (at_most_weaken 0); [lia|no_request]|].
  apply (at_most_bind 2 2); [apply at_most_getAudioFeatures|intros f1].
  apply (at_most_bind 2 0); [apply at_most_getAudioFeatures|intros f2].
  no_request.
Qed.

Lemma at_most_Popularity_handleSubmit w link1 link2 :
  at_most 8 (Popularity.handleSubmit w link1 link2).
Proof.
  unfold Popularity.handleSubmit, console_log.
  destruct (_ || _); [apply (at_most_weaken 0); [lia|no_request]|].
  apply (at_most_bind 0 8); [apply at_most_extractPlaylistId|intros o1].
  apply (at_most_bind 0 8); [apply at_most_extractPlaylistId|intros o2].
  apply (at_most_bind 0 8); [apply at_most_print|intros _].
  apply (at_most_bind 0 8); [apply at_most_print|intros _].
  destruct o1 as [id1|], o2 as [id2|];
    try solve [apply (at_most_weaken 0); [lia|no_request]].
  destruct (_ || _); [apply (at_most_weaken 0); [lia|no_request]|].
  apply (at_most_try 8 0);
    [apply at_most_Popularity_determineWinner|intros ?; unfold console_error; no_request].
Qed.

Lemma at_most_Category_handleSubmit w link1 link2 category :
  at_most 8 (Category.handleSubmit w link1 link2 category).
Proof.
  unfold Category.handleSubmit, console_log.
  destruct (_ || _); [apply (at_most_weaken 0); [lia|no_request]|].
  apply (at_most_bind 0 8); [apply at_most_extractPlaylistId|intros o1].
  apply (at_most_bind 0 8); [apply at_most_extractPlaylistId|intros o2].
  apply (at_most_bind 0 8); [apply at_most_print|intros _].
  apply (at_most_bind 0 8); [apply at_most_print|intros _].
  destruct o1 as [id1|], o2 as [id2|];
    try solve [apply (at_most_weaken 0); [lia|no_request]].
  destruct (_ || _); [apply (at_most_weaken 0); [lia|no_request]|].
  apply (at_most_try 8 0);
    [apply at_most_Category_determineWinner|intros ?; unfold console_error; no_request].
Qed.

(** One call of [getToken] issues at most one request, a fetcher at most
    two (the exchange and its own call), and a whole comparison, from
    [handleSubmit] down, at most eight, whether it succeeds or fails.  Eight
    is reached: when the service hands out an empty token, the cache never
    serves and each of the four fetches pays its own exchange. *)
Theorem request_budget (w : world) :
  at_most 1 (getToken w)
  ∧ (∀ playlistId, at_most 2 (Popularity.getPlaylistInfo w playlistId))
  ∧ (∀ playlistId, at_most 2 (Popularity.getPlaylistTracks w playlistId))
  ∧ (∀ playlistId, at_most 2 (Category.getPlaylistTracks w playlistId))
  ∧ (∀ trackIds, at_most 2 (Category.getAudioFeatures w trackIds))
  ∧ (∀ id1 id2, at_most 8 (Popularity.determineWinner w id1 id2))
  ∧ (∀ id1 id2 category, at_most 8 (Category.determineWinner w id1 id2 category))
  ∧ (∀ link1 link2, at_most 8 (Popularity.handleSubmit w link1 link2))
  ∧ (∀ link1 link2 category,
       at_most 8 (Category.handleSubmit w link1 link2 category))
  ∧ length (requests (snd (Popularity.determineWinner Scenario.empty_token
                             Sample.P1 Sample.P2 Sample.fresh))) = 8%nat.
Proof.
  repeat apply conj; intros.
  - apply at_most_getToken.
  - apply at_most_getPlaylistInfo.
  - apply at_most_Popularity_getPlaylistTracks.
  - apply at_most_Category_getPlaylistTracks.
  - apply at_most_getAudioFeatures.
  - apply at_most_Popularity_determineWinner.
  - apply at_most_Category_determineWinner.
  - apply at_most_Popularity_handleSubmit.
  - apply at_most_Category_handleSubmit.
  - vm_compute. reflexivity.
Qed.

(** ** One error per function *)

Lemma fails_only_with_try {A} (m : async A) (h : exn → async A) e :
  (∀ e0 s0, ∃ s1, h e0 s0 = (Throw e, s1)) → fails_only_with e (try_catch m h).
Proof. intros Hh s e' s'. by apply try_rethrow. Qed.

Lemma log_then_throw {A} label e s :
  ∃ s1, (console_error label;; (mthrow e : async A)) s = (Throw e, s1).
Proof. eexists. reflexivity. Qed.

Lemma getToken_one_error w :
  fails_only_with (Error "Failed to get access token") (getToken w).
Proof.
  intros s e s'. rewrite getToken_run. destruct (_ && _); [done|].
  unfold exchange. apply try_rethrow. intros. apply log_then_throw.
Qed.

Lemma Popularity_determineWinner_one_error w id1 id2 :
  fails_only_with (Error "Failed to determine winner")
    (Popularity.determineWinner w id1 id2).
Proof. apply fails_only_with_try. intros. apply log_then_throw. Qed.

Lemma Category_determineWinner_one_error w id1 id2 category :
  fails_only_with (Error "Failed to determine winner")
    (Category.determineWinner w id1 id2 category).
Proof.
  unfold Category.determineWinner. cbv zeta. destruct (negb _); [done|].
  apply fails_only_with_try. intros. apply log_then_throw.
Qed.

(** Each function that can fail fails with one error of its own, whatever
    went wrong inside it (a rejected exchange, a rejected call, a missing
    list, a [null] track): the cause is written to the console and is not
    part of what is thrown. *)
Theorem one_error_per_function (w : world) :
  fails_only_with (Error "Failed to get access token") (getToken w)
  ∧ (∀ playlistId,
       fails_only_with (Error "Failed to fetch playlist info")
         (Popularity.getPlaylistInfo w playlistId))
  ∧ (∀ playlistId,
       fails_only_with (Error "Failed to fetch playlist data")
         (Popularity.getPlaylistTracks w playlistId))
  ∧ (∀ playlistId,
       fails_only_with (Error "Failed to fetch playlist data")
         (Category.getPlaylistTracks w playlistId))
  ∧ (∀ trackIds,
       fails_only_with (Error "Failed to fetch audio features")
         (Category.getAudioFeatures w trackIds))
  ∧ (∀ id1 id2,
       fails_only_with (Error "Failed to determine winner")
         (Popularity.determineWinner w id1 id2))
  ∧ (∀ id1 id2 category,
       fails_only_with (Error "Failed to determine winner")
         (Category.determineWinner w id1 id2 category))
  ∧ fst (Popularity.determineWinner (Scenario.down (Some 401))
           Sample.P1 Sample.P2 Sample.fresh)
    = Throw (Error "Failed to determine winner").
Proof.
  repeat apply conj; intros.
  - apply getToken_one_error.
  - apply fails_only_with_try. intros. apply log_then_throw.
  - apply fails_only_with_try. intros. apply log_then_throw.
  - apply fails_only_with_try. intros. apply log_then_throw.
  - intros s e s'. apply getAudioFeatures_one_error.
  - apply Popularity_determineWinner_one_error.
  - apply Category_determineWinner_one_error.
  - vm_compute. reflexivity.
Qed.

(** ** What a submission ends with *)

(** What [determineWinner] of the popularity version returns is the tie
    message alone, or a playlist with the message that names it. *)
Lemma Popularity_determineWinner_forms w id1 id2 s r s' :
  Popularity.determineWinner w id1 id2 s = (Return r, s') →
  r = Popularity.MessageOnly "Both playlists are equally underground!"
  ∨ ∃ i, r = Popularity.WithPlaylist i (Popularity.underground i).
Proof.
  unfold Popularity.determineWinner, try_catch, mbind, async_bind.
  destruct (Popularity.getPlaylistTracks w id1 s) as [[t1|e1] s1]; [|done].
  destruct (Popularity.getPlaylistTracks w id2 s1) as [[t2|e2] s2]; [|done].
  destruct (Popularity.getPlaylistInfo w id1 s2) as [[i1|e3] s3]; [|done].
  destruct (Popularity.getPlaylistInfo w id2 s3) as [[i2|e4] s4]; [|done].
  destruct (_ || _); [done|]. cbv zeta.
  destruct (num_gt _ _); [intros [= <- _]; eauto|].
  destruct (num_lt _ _); intros [= <- _]; eauto.
Qed.

Lemma Popularity_handleSubmit_forms
    (w : world) (playlist1 playlist2 : string) (s : state) :
  ∃ r s',
    Popularity.handleSubmit w playlist1 playlist2 s = (Return r, s')
    ∧ (r = Popularity.blank "Please fill in all fields!"
       ∨ r = Popularity.blank "Invalid playlist link!"
       ∨ r = Popularity.blank "Error fetching playlist data!"
       ∨ r = Popularity.MessageOnly "Both playlists are equally underground!"
       ∨ ∃ i, r = Popularity.WithPlaylist i (Popularity.underground i)).
Proof.
  unfold Popularity.handleSubmit.
  destruct (_ || _); [by eauto 10|].
  unfold extractPlaylistId, mbind, async_bind, mret, async_ret, console_log,
    console_error, print.
  destruct (url_match playlist1) as [id1|], (url_match playlist2) as [id2|];
    simpl; try by eauto 10.
  destruct (_ || _); [by eauto 10|].
  unfold try_catch.
  match goal with
  | |- context [Popularity.determineWinner w id1 id2 ?s0] =>
      destruct (Popularity.determineWinner w id1 id2 s0) as [[r|e] s1] eqn:Hd
  end; [|by eauto 10].
  apply Popularity_determineWinner_forms in Hd. do 2 eexists. split; [done|].
  destruct Hd; auto 10.
Qed.

(** [handleSubmit] of the popularity version never throws: whatever the two
    fields hold and whatever the service does, it ends by setting a result,
    which is one of three fixed messages with empty name and image, the tie
    message alone, or a playlist with the message that names it. *)
Theorem handleSubmit_always_sets_a_result
    (w : world) (playlist1 playlist2 : string) (s : state) :
  ∃ r s',
    Popularity.handleSubmit w playlist1 playlist2 s = (Return r, s')
    ∧ (r = Popularity.blank "Please fill in all fields!"
       ∨ r = Popularity.blank "Invalid playlist link!"
       ∨ r = Popularity.blank "Error fetching playlist data!"
       ∨ r = Popularity.MessageOnly "Both playlists are equally underground!"
       ∨ ∃ i, r = Popularity.WithPlaylist i (Popularity.underground i)).
Proof. apply Popularity_handleSubmit_forms. Qed.

Lemma append_nonempty (a b : string) : b ≠ EmptyString → a +:+ b ≠ EmptyString.
Proof. by destruct a, b. Qed.

(** Every result that [handleSubmit] sets is rendered with its message, which
    is never empty; a cover image is rendered only for a playlist that was
    declared more underground and has a cover.  Before the first submission
    nothing is rendered. *)
Theorem page_shows_the_result
    (w : world) (playlist1 playlist2 : string) (s : state) :
  Page.render Page.initial = None
  ∧ ∃ r s' v,
      Popularity.handleSubmit w playlist1 playlist2 s = (Return r, s')
      ∧ Page.render r = Some v
      ∧ Page.text v = Page.message_of r
      ∧ Page.text v ≠ EmptyString
      ∧ ∀ address, Page.cover v = Some address →
          address ≠ EmptyString
          ∧ ∃ name, r = Popularity.WithPlaylist
                          {| Popularity.name := name; Popularity.image := address |}
                          (Page.message_of r).
Proof.
  split; [reflexivity|].
  destruct (Popularity_handleSubmit_forms w playlist1 playlist2 s)
    as (r & s' & Hrun & Hr).
  assert (Page.message_of r ≠ EmptyString) as Hm.
  { destruct Hr as [->|[->|[->|[->|[i ->]]]]]; try done.
    simpl. by apply append_nonempty. }
  exists r, s'. unfold Page.render.
  assert (truthy (Some (Page.message_of r)) = true) as -> by by apply truthy_Some.
  eexists. split; [done|]. split; [done|]. split; [done|]. split; [done|].
  simpl. intros address.
  destruct r as [[n i] m|m]; simpl; [|done].
  destruct (i =? "")%string eqn:E; simpl; [done|].
  intros [= <-]. split; [by apply String.eqb_neq|by exists n].
Qed.

(** ** The category test, both ways *)

Lemma lookup_category_falsy category :
  Category.is_truthy (Category.lookup_category category) = false
  ↔ Category.categoryMapping !! category = None
    ∧ category ∉ Category.Object_prototype.
Proof.
  split.
  - intros H. destruct (Category.categoryMapping !! category) as [k|] eqn:Hk.
    + apply listed_category_passes in Hk as [_ Hk]. congruence.
    + split; [done|]. intros Hin.
      apply inherited_names_pass in Hin as [_ Hin]. congruence.
  - intros [Hk Hin]. unfold Category.lookup_category.
    rewrite Hk. by rewrite bool_decide_eq_false_2.
Qed.

(** [determineWinner] of the category version returns "Invalid category"
    exactly for the labels that are neither a key of [categoryMapping] nor
    the name of a property of [Object.prototype]; for those labels the state
    is untouched, and for no other label is that string the result. *)
Theorem invalid_category_exactly
    (w : world) (playlist1Id playlist2Id category : string) (s : state) :
  fst (Category.determineWinner w playlist1Id playlist2Id category s)
  = Return "Invalid category"
  ↔ Category.categoryMapping !! category = None
    ∧ category ∉ Category.Object_prototype.
Proof.
  rewrite <-lookup_category_falsy. unfold Category.determineWinner. cbv zeta.
  destruct (Category.is_truthy _); simpl; [|done].
  split; [|done]. unfold try_catch, mbind, async_bind.
  destruct (Category.getPlaylistTracks w playlist1Id s) as [[t1|e1] s1]; [|done].
  destruct (Category.getPlaylistTracks w playlist2Id s1) as [[t2|e2] s2]; [|done].
  destruct (_ || _); [done|].
  destruct (Category.getAudioFeatures w t1 s2) as [[f1|e3] s3]; [|done].
  destruct (Category.getAudioFeatures w t2 s3) as [[f2|e4] s4]; [|done].
  simpl. unfold Category.verdict, num_gt.
  destruct (String.eqb category "Sadder");
    match goal with |- context [num_lt ?a ?b] => destruct (num_lt a b) end;
    done.
Qed.

(** ** The other categories: the higher mean wins *)

(** For a category of the mapping other than "Sadder", when the fetches
    succeed and both playlists have a track, the playlist whose mean of the
    mapped feature, the arithmetic mean over its tracks, is strictly higher
    is reported, in a message that ends with the category in lower case. *)
Theorem higher_mean_wins
    (w : world) (playlist1Id playlist2Id category featureKey : string)
    (s0 s1 s2 s3 s4 : state) (tracks1 tracks2 : list string)
    (audioFeatures1 audioFeatures2 : list (gmap string float)) :
  Category.categoryMapping !! category = Some featureKey →
  category ≠ "Sadder" →
  Category.getPlaylistTracks w playlist1Id s0 = (Return tracks1, s1) →
  Category.getPlaylistTracks w playlist2Id s1 = (Return tracks2, s2) →
  tracks1 ≠ [] →
  tracks2 ≠ [] →
  Category.getAudioFeatures w tracks1 s2 = (Return audioFeatures1, s3) →
  Category.getAudioFeatures w tracks2 s3 = (Return audioFeatures2, s4) →
  let mean1 :=
    arithmetic_mean
      (map (λ t : gmap string float, or_zero (t !! featureKey)) audioFeatures1) in
  let mean2 :=
    arithmetic_mean
      (map (λ t : gmap string float, or_zero (t !! featureKey)) audioFeatures2) in
  ((mean2 <? mean1)%float = true →
     Category.determineWinner w playlist1Id playlist2Id category s0
     = (Return ("Playlist 1 is more " +:+ toLowerCase category), s4))
  ∧ ((mean1 <? mean2)%float = true →
       Category.determineWinner w playlist1Id playlist2Id category s0
       = (Return ("Playlist 2 is more " +:+ toLowerCase category), s4)).
Proof.
  intros Hkey Hsad Ht1 Ht2 Hn1 Hn2 Hf1 Hf2 mean1 mean2.
  destruct (listed_category_passes _ _ Hkey) as [Hlook Hpass].
  rewrite (Category_determineWinner_run w playlist1Id playlist2Id category
             s0 s1 s2 s3 s4 tracks1 tracks2 audioFeatures1 audioFeatures2)
    by done.
  rewrite !avgFeature_mean by by eapply getAudioFeatures_nonempty.
  rewrite Hlook. simpl Category.property_key. fold mean1 mean2.
  unfold Category.verdict.
  apply String.eqb_neq in Hsad. rewrite Hsad.
  unfold num_gt. split; intros Hlt.
  - unfold num_lt. by rewrite Hlt.
  - by rewrite (num_lt_asym mean1 mean2 Hlt).
Qed.

Lemma higher_mean_wins_witness :
  fst (Category.determineWinner
         (Scenario.loud (-5)%float (-11)%float)
         Sample.P1 Sample.P2 "Louder" Sample.fresh)
  = Return "Playlist 1 is more louder".
Proof.
  set (w := Scenario.loud (-5)%float (-11)%float).
  set (s1 := snd (Category.getPlaylistTracks w Sample.P1 Sample.fresh)).
  set (s2 := snd (Category.getPlaylistTracks w Sample.P2 s1)).
  set (t1 := [Sample.T 0; Sample.T 1; Sample.T 2]).
  set (t2 := [Sample.T 3; Sample.T 4]).
  set (s3 := snd (Category.getAudioFeatures w t1 s2)).
  set (s4 := snd (Category.getAudioFeatures w t2 s3)).
  pose proof (higher_mean_wins w Sample.P1 Sample.P2 "Louder" "loudness"
                Sample.fresh s1 s2 s3 s4 t1 t2
                [ {[ "loudness" := (-5)%float ]} ]
                [ {[ "loudness" := (-11)%float ]} ]) as H.
  destruct H as [H _].
  - vm_compute. reflexivity.
  - discriminate.
  - vm_compute. reflexivity.
  - vm_compute. reflexivity.
  - discriminate.
  - discriminate.
  - vm_compute. reflexivity.
  - vm_compute. reflexivity.
  - rewrite H; [reflexivity|]. vm_compute. reflexivity.
Defined.

(** ** The tie of the popularity version *)

(** In the popularity version, when the fetches succeed, both playlists have
    a track and the two average popularities, the arithmetic means of the
    popularities of their tracks, are equal, the result is the message "Both
    playlists are equally underground!" alone: it carries neither name nor
    image. *)
Theorem equal_averages_name_no_playlist
    (w : world) (playlist1Id playlist2Id : string) (s0 s1 s2 s3 s4 : state)
    (tracks1 tracks2 : list Popularity.track_entry)
    (info1 info2 : Popularity.info) :
  Popularity.getPlaylistTracks w playlist1Id s0 = (Return tracks1, s1) →
  Popularity.getPlaylistTracks w playlist2Id s1 = (Return tracks2, s2) →
  Popularity.getPlaylistInfo w playlist1Id s2 = (Return info1, s3) →
  Popularity.getPlaylistInfo w playlist2Id s3 = (Return info2, s4) →
  tracks1 ≠ [] →
  tracks2 ≠ [] →
  (arithmetic_mean (map (λ t, or_zero (Popularity.popularity t)) tracks1)
   =? arithmetic_mean (map (λ t, or_zero (Popularity.popularity t)) tracks2))%float
  = true →
  Popularity.determineWinner w playlist1Id playlist2Id s0
  = (Return (Popularity.MessageOnly "Both playlists are equally underground!"),
     s4).
Proof. intros. by eapply Popularity_tie. Qed.

Lemma equal_averages_name_no_playlist_witness :
  arithmetic_mean [10; 30]%float = arithmetic_mean [20; 20]%float
  ∧ fst (Popularity.determineWinner Scenario.even Sample.P1 Sample.P2
           Sample.fresh)
    = Return (Popularity.MessageOnly "Both playlists are equally underground!").
Proof.
  split; [reflexivity|].
  set (w := Scenario.even).
  set (s1 := snd (Popularity.getPlaylistTracks w Sample.P1 Sample.fresh)).
  set (s2 := snd (Popularity.getPlaylistTracks w Sample.P2 s1)).
  set (s3 := snd (Popularity.getPlaylistInfo w Sample.P1 s2)).
  set (s4 := snd (Popularity.getPlaylistInfo w Sample.P2 s3)).
  set (entry i p := {| Popularity.id := Sample.T i;
                       Popularity.popularity := Some p |}).
  pose proof (equal_averages_name_no_playlist w Sample.P1 Sample.P2
                Sample.fresh s1 s2 s3 s4
                [entry 0%nat 10%float; entry 1%nat 30%float]
                [entry 2%nat 20%float; entry 3%nat 20%float]
                {| Popularity.name := "Deep cuts";
                   Popularity.image := "https://i.scdn.co/image/p1" |}
                {| Popularity.name := "Top hits";
                   Popularity.image := "https://i.scdn.co/image/p2" |}) as H.
  rewrite H; [reflexivity|..].
  - vm_compute. reflexivity.
  - vm_compute. reflexivity.
  - vm_compute. reflexivity.
  - vm_compute. reflexivity.
  - discriminate.
  - discriminate.
  - vm_compute. reflexivity.
Defined.

(** ** The playlist information *)

(** Once the token is there, [getPlaylistInfo] returns the name of the
    answer and the address of its first image, or the empty string when the
    list of images is empty or the first address is missing or empty; when
    the call is rejected it throws its own error. *)
Theorem getPlaylistInfo_reads_the_answer
    (w : world) (playlistId : string) (s s1 : state) (tok : string) :
  getToken w s = (Return tok, s1) →
  fst (Popularity.getPlaylistInfo w playlistId s) =
    match playlist_endpoint w (length (requests s1)) playlistId tok with
    | Ok data =>
        Return {| Popularity.name := playlist_name data;
                  Popularity.image := default "" (head (images data) ≫= url) |}
    | Failed _ => Throw (Error "Failed to fetch playlist info")
    end.
Proof.
  intros Htok.
  destruct (playlist_endpoint w (length (requests s1)) playlistId tok)
    as [data|status] eqn:Hdata.
  - by eapply getPlaylistInfo_result.
  - unfold Popularity.getPlaylistInfo, try_catch, mbind at 1 2, async_bind.
    rewrite Htok. unfold await. by rewrite Hdata.
Qed.

Lemma getPlaylistInfo_reads_the_answer_witness :
  fst (Popularity.getPlaylistInfo Scenario.no_cover Sample.P1 Sample.fresh)
  = Return {| Popularity.name := "Untitled"; Popularity.image := "" |}.
Proof.
  apply (getPlaylistInfo_reads_the_answer Scenario.no_cover Sample.P1
           Sample.fresh (snd (getToken Scenario.no_cover Sample.fresh))
           "BQDtoken").
  reflexivity.
Defined.

(** ** The first failure ends the comparison *)

(** In the popularity version the four fetches run one after the other, and
    the first one that fails ends [determineWinner]: it throws its error and
    issues no request after the failed fetch. *)
Theorem Popularity_first_failure_stops
    (w : world) (playlist1Id playlist2Id : string) (s0 : state) :
  let run := Popularity.determineWinner w playlist1Id playlist2Id s0 in
  let failure := Error "Failed to determine winner" in
  (∀ e s1,
     Popularity.getPlaylistTracks w playlist1Id s0 = (Throw e, s1) →
     stops_at run s1 failure)
  ∧ (∀ t1 s1 e s2,
       Popularity.getPlaylistTracks w playlist1Id s0 = (Return t1, s1) →
       Popularity.getPlaylistTracks w playlist2Id s1 = (Throw e, s2) →
       stops_at run s2 failure)
  ∧ (∀ t1 s1 t2 s2 e s3,
       Popularity.getPlaylistTracks w playlist1Id s0 = (Return t1, s1) →
       Popularity.getPlaylistTracks w playlist2Id s1 = (Return t2, s2) →
       Popularity.getPlaylistInfo w playlist1Id s2 = (Throw e, s3) →
       stops_at run s3 failure)
  ∧ (∀ t1 s1 t2 s2 i1 s3 e s4,
       Popularity.getPlaylistTracks w playlist1Id s0 = (Return t1, s1) →
       Popularity.getPlaylistTracks w playlist2Id s1 = (Return t2, s2) →
       Popularity.getPlaylistInfo w playlist1Id s2 = (Return i1, s3) →
       Popularity.getPlaylistInfo w playlist2Id s3 = (Throw e, s4) →
       stops_at run s4 failure).
Proof.
  intros run failure. subst run failure.
  unfold stops_at, Popularity.determineWinner, try_catch, mbind, async_bind.
  repeat apply conj; intros.
  - by rewrite H.
  - by rewrite H, H0.
  - by rewrite H, H0, H1.
  - by rewrite H, H0, H1, H2.
Qed.

Lemma Popularity_first_failure_stops_witness :
  stops_at
    (Popularity.determineWinner (Scenario.down (Some 503)) Sample.P1 Sample.P2
       Sample.fresh)
    (snd (Popularity.getPlaylistTracks (Scenario.down (Some 503)) Sample.P1
            Sample.fresh))
    (Error "Failed to determine winner")
  ∧ requests (snd (Popularity.determineWinner (Scenario.down (Some 503))
                     Sample.P1 Sample.P2 Sample.fresh)) = [PostToken].
Proof.
  pose proof (proj1 (Popularity_first_failure_stops (Scenario.down (Some 503))
                       Sample.P1 Sample.P2 Sample.fresh)
                (Error "Failed to fetch playlist data")
                (snd (Popularity.getPlaylistTracks (Scenario.down (Some 503))
                        Sample.P1 Sample.fresh))
                eq_refl) as H.
  split; [exact H|]. destruct H as [_ ->]. reflexivity.
Defined.

(** The same in the category version, for a label that passes the category
    test: a failed fetch of the tracks or of the features ends
    [determineWinner] with its error and without a further request. *)
Theorem Category_first_failure_stops
    (w : world) (playlist1Id playlist2Id category : string) (s0 : state) :
  Category.is_truthy (Category.lookup_category category) = true →
  let run := Category.determineWinner w playlist1Id playlist2Id category s0 in
  let failure := Error "Failed to determine winner" in
  (∀ e s1,
     Category.getPlaylistTracks w playlist1Id s0 = (Throw e, s1) →
     stops_at run s1 failure)
  ∧ (∀ t1 s1 e s2,
       Category.getPlaylistTracks w playlist1Id s0 = (Return t1, s1) →
       Category.getPlaylistTracks w playlist2Id s1 = (Throw e, s2) →
       stops_at run s2 failure)
  ∧ (∀ t1 s1 t2 s2 e s3,
       Category.getPlaylistTracks w playlist1Id s0 = (Return t1, s1) →
       Category.getPlaylistTracks w playlist2Id s1 = (Return t2, s2) →
       t1 ≠ [] → t2 ≠ [] →
       Category.getAudioFeatures w t1 s2 = (Throw e, s3) →
       stops_at run s3 failure)
  ∧ (∀ t1 s1 t2 s2 f1 s3 e s4,
       Category.getPlaylistTracks w playlist1Id s0 = (Return t1, s1) →
       Category.getPlaylistTracks w playlist2Id s1 = (Return t2, s2) →
       t1 ≠ [] → t2 ≠ [] →
       Category.getAudioFeatures w t1 s2 = (Return f1, s3) →
       Category.getAudioFeatures w t2 s3 = (Throw e, s4) →
       stops_at run s4 failure).
Proof.
  intros Hpass run failure. subst run failure.
  unfold stops_at, Category.determineWinner. rewrite Hpass. cbn beta iota delta [negb].
  unfold try_catch, mbind, async_bind.
  repeat apply conj; intros.
  - by rewrite H.
  - by rewrite H, H0.
  - rewrite H, H0. destruct t1, t2; try done. simpl. by rewrite H3.
  - rewrite H, H0. destruct t1, t2; try done. simpl. by rewrite H3, H4.
Qed.

Lemma Category_first_failure_stops_witness :
  stops_at
    (Category.determineWinner (Sample.failing_features (Some 429))
       Sample.P1 Sample.P2 "Energetic" Sample.fresh)
    (snd (Category.getAudioFeatures (Sample.failing_features (Some 429))
            [Sample.T 0; Sample.T 1; Sample.T 2]
            (snd (Category.getPlaylistTracks (Sample.failing_features (Some 429))
                    Sample.P2
                    (snd (Category.getPlaylistTracks
                            (Sample.failing_features (Some 429)) Sample.P1
                            Sample.fresh))))))
    (Error "Failed to determine winner").
Proof.
  set (w := Sample.failing_features (Some 429)).
  set (s1 := snd (Category.getPlaylistTracks w Sample.P1 Sample.fresh)).
  set (s2 := snd (Category.getPlaylistTracks w Sample.P2 s1)).
  assert (Category.is_truthy (Category.lookup_category "Energetic") = true)
    as Hpass by reflexivity.
  apply (proj1 (proj2 (proj2 (Category_first_failure_stops w Sample.P1 Sample.P2
                                "Energetic" Sample.fresh Hpass)))
           [Sample.T 0; Sample.T 1; Sample.T 2] s1
           [Sample.T 3; Sample.T 4] s2
           (Error "Failed to fetch audio features")).
  - vm_compute. reflexivity.
  - vm_compute. reflexivity.
  - discriminate.
  - discriminate.
  - vm_compute. reflexivity.
Defined.

(** ** A playlist without a usable track *)

(** When one of the two track lists comes back empty: the popularity version
    still fetches the information of both playlists and only then fails; the
    category version returns its message at once, as a normal result, and
    fetches no audio feature. *)
Theorem empty_playlist_is_turned_down
    (w : world) (playlist1Id playlist2Id : string) (s0 s1 s2 : state) :
  (∀ tracks1 tracks2 info1 info2 s3 s4,
     Popularity.getPlaylistTracks w playlist1Id s0 = (Return tracks1, s1) →
     Popularity.getPlaylistTracks w playlist2Id s1 = (Return tracks2, s2) →
     Popularity.getPlaylistInfo w playlist1Id s2 = (Return info1, s3) →
     Popularity.getPlaylistInfo w playlist2Id s3 = (Return info2, s4) →
     tracks1 = [] ∨ tracks2 = [] →
     stops_at (Popularity.determineWinner w playlist1Id playlist2Id s0) s4
       (Error "Failed to determine winner"))
  ∧ (∀ tracks1 tracks2 category,
       Category.is_truthy (Category.lookup_category category) = true →
       Category.getPlaylistTracks w playlist1Id s0 = (Return tracks1, s1) →
       Category.getPlaylistTracks w playlist2Id s1 = (Return tracks2, s2) →
       tracks1 = [] ∨ tracks2 = [] →
       Category.determineWinner w playlist1Id playlist2Id category s0
       = (Return "One of the playlists has no tracks.", s2)).
Proof.
  split.
  - intros t1 t2 i1 i2 s3 s4 H1 H2 H3 H4 Hempty.
    unfold stops_at, Popularity.determineWinner, try_catch, mbind, async_bind.
    rewrite H1, H2, H3, H4.
    by destruct Hempty as [->| ->]; [|destruct t1].
  - intros t1 t2 category Hpass H1 H2 Hempty.
    unfold Category.determineWinner. rewrite Hpass. cbn beta iota delta [negb].
    unfold try_catch, mbind, async_bind. rewrite H1, H2.
    by destruct Hempty as [->| ->]; [|destruct t1].
Qed.

Lemma empty_playlist_is_turned_down_witness :
  Category.determineWinner Sample.removed_tracks Sample.P1 Sample.P2 "Alive"
    Sample.fresh
  = (Return "One of the playlists has no tracks.",
     snd (Category.getPlaylistTracks Sample.removed_tracks Sample.P2
            (snd (Category.getPlaylistTracks Sample.removed_tracks Sample.P1
                    Sample.fresh))))
  ∧ stops_at
      (Popularity.determineWinner Sample.removed_tracks Sample.P1 Sample.P2
         Sample.fresh)
      (snd (Popularity.determineWinner Sample.removed_tracks Sample.P1 Sample.P2
              Sample.fresh))
      (Error "Failed to determine winner").
Proof.
  set (w := Sample.removed_tracks).
  split.
  - apply (proj2 (empty_playlist_is_turned_down w Sample.P1 Sample.P2
                    Sample.fresh
                    (snd (Category.getPlaylistTracks w Sample.P1 Sample.fresh))
                    (snd (Category.getPlaylistTracks w Sample.P2
                            (snd (Category.getPlaylistTracks w Sample.P1
                                    Sample.fresh)))))
             [] [] "Alive").
    + reflexivity.
    + vm_compute. reflexivity.
    + vm_compute. reflexivity.
    + by left.
  - set (s1 := snd (Popularity.getPlaylistTracks w Sample.P1 Sample.fresh)).
    set (s2 := snd (Popularity.getPlaylistTracks w Sample.P2 s1)).
    set (s3 := snd (Popularity.getPlaylistInfo w Sample.P1 s2)).
    set (s4 := snd (Popularity.getPlaylistInfo w Sample.P2 s3)).
    pose proof (proj1 (empty_playlist_is_turned_down w Sample.P1 Sample.P2
                         Sample.fresh s1 s2)
                  [] []
                  {| Popularity.name := "Deep cuts";
                     Popularity.image := "https://i.scdn.co/image/p1" |}
                  {| Popularity.name := "Top hits";
                     Popularity.image := "https://i.scdn.co/image/p2" |}
                  s3 s4) as H.
    destruct H as [H Hreq].
    + vm_compute. reflexivity.
    + vm_compute. reflexivity.
    + vm_compute. reflexivity.
    + vm_compute. reflexivity.
    + by left.
    + split; [exact H|reflexivity].
Defined.

(** ** The token, from one call to the next *)

(** The token that [getToken] returns is the one it leaves in the cache.
    The next call, made while that token is not empty and its expiry is
    still ahead, returns the same token and touches nothing, against any
    service; a token that is the empty string is never served from the
    cache: the next call is an exchange again. *)
Theorem token_is_reused (w : world) (s s1 : state) (tok : string) :
  getToken w s = (Return tok, s1) →
  token s1 = Some tok
  ∧ (tok ≠ "" → now s1 < to_number (tokenExpirationTime s1) →
       ∀ w', getToken w' s1 = (Return tok, s1))
  ∧ (tok = "" →
       ∀ w', requests (snd (getToken w' s1)) = requests s1 ++ [PostToken]).
Proof.
  intros Hrun.
  assert (token s1 = Some tok) as Htok.
  { revert Hrun. rewrite getToken_run.
    destruct (_ && _) eqn:Hhit.
    - apply cache_valid_test in Hhit as (t & Ht & _).
      rewrite Ht. by intros [= <- <-].
    - rewrite exchange_run. simpl.
      destruct (token_endpoint w _); [|done]. by intros [= <- <-]. }
  split; [done|]. split.
  - intros Hne Hlt w'. rewrite getToken_run.
    assert (∃ t, cache_valid s1 t) as ->%cache_valid_test
      by (by exists tok).
    by rewrite Htok.
  - intros -> w'. rewrite getToken_run, Htok. simpl.
    rewrite exchange_run. simpl. by destruct (token_endpoint w' _).
Qed.

Lemma token_is_reused_witness :
  getToken (Scenario.down None)
    (snd (getToken (Sample.healthy 0 0) Sample.fresh))
  = (Return "BQDtoken", snd (getToken (Sample.healthy 0 0) Sample.fresh)).
Proof.
  pose proof (token_is_reused (Sample.healthy 0 0) Sample.fresh
                (snd (getToken (Sample.healthy 0 0) Sample.fresh)) "BQDtoken"
                eq_refl) as (_ & H & _).
  apply H; [discriminate|simpl; lia].
Defined.

(** ** What the fetchers send and return *)

Lemma filter_valid_length trackIds :
  Forall (λ id, id ≠ "" ∧ String.length id = 22%nat)
    (List.filter Category.valid_track_id trackIds).
Proof.
  apply List.Forall_forall. intros id Hin.
  apply filter_In in Hin as [_ Hv]. unfold Category.valid_track_id in Hv.
  apply andb_true_iff in Hv as [Ht Hl].
  split; [by apply truthy_Some|by apply Nat.eqb_eq].
Qed.

(** Once the token is there, [getAudioFeatures] keeps the identifiers of
    exactly 22 characters.  When none is left it throws without calling the
    endpoint; otherwise it issues one request, for the identifiers kept, and
    returns the list of the answer as it is when that list is not empty. *)
Theorem getAudioFeatures_sends_valid_ids
    (w : world) (trackIds : list string) (s s1 : state) (tok : string) :
  getToken w s = (Return tok, s1) →
  let validTrackIds := List.filter Category.valid_track_id trackIds in
  let run := Category.getAudioFeatures w trackIds s in
  Forall (λ id, id ≠ "" ∧ String.length id = 22%nat) validTrackIds
  ∧ (validTrackIds = [] →
       stops_at run s1 (Error "Failed to fetch audio features"))
  ∧ (validTrackIds ≠ [] →
       requests (snd run) = requests s1 ++ [GetAudioFeatures validTrackIds tok]
       ∧ fst run =
           match features_endpoint w (length (requests s1)) validTrackIds tok with
           | Ok data =>
               match audio_features data with
               | Some (f :: fs) => Return (f :: fs)
               | _ => Throw (Error "Failed to fetch audio features")
               end
           | Failed _ => Throw (Error "Failed to fetch audio features")
           end).
Proof.
  intros Htok valid run. split; [apply filter_valid_length|].
  subst run. unfold stops_at, Category.getAudioFeatures, try_catch, mbind, async_bind.
  rewrite Htok. fold valid. split.
  - intros ->. done.
  - intros Hne. destruct valid as [|v vs] eqn:Ev; [done|].
    change (length (v :: vs) =? 0)%nat with false. cbv iota.
    unfold await.
    destruct (features_endpoint w (length (requests s1)) (v :: vs) tok)
      as [data|status]; simpl.
    + by destruct (audio_features data) as [[|f fs]|].
    + by destruct status as [status|]; [destruct (status =? 429)|].
Qed.

Lemma getAudioFeatures_sends_valid_ids_witness :
  requests (snd (Category.getAudioFeatures (Sample.healthy 0 0)
                   [Sample.T 0; "too-short"; ""; Sample.T 1] Sample.fresh))
  = [PostToken; GetAudioFeatures [Sample.T 0; Sample.T 1] "BQDtoken"]
  ∧ stops_at
      (Category.getAudioFeatures (Sample.healthy 0 0) ["too-short"] Sample.fresh)
      (snd (getToken (Sample.healthy 0 0) Sample.fresh))
      (Error "Failed to fetch audio features").
Proof.
  split.
  - pose proof (getAudioFeatures_sends_valid_ids (Sample.healthy 0 0)
                  [Sample.T 0; "too-short"; ""; Sample.T 1] Sample.fresh
                  (snd (getToken (Sample.healthy 0 0) Sample.fresh)) "BQDtoken"
                  eq_refl) as (_ & _ & H).
    destruct H as [H _]; [discriminate|]. rewrite H. reflexivity.
  - pose proof (getAudioFeatures_sends_valid_ids (Sample.healthy 0 0)
                  ["too-short"] Sample.fresh
                  (snd (getToken (Sample.healthy 0 0) Sample.fresh)) "BQDtoken"
                  eq_refl) as (_ & H & _).
    apply H. reflexivity.
Defined.

Lemma to_entry_kept (it : item) (t : Popularity.track_entry) :
  Popularity.to_entry it = Some t →
  Popularity.has_track_id it = true →
  Popularity.id t ≠ "" ∧ is_Some (Popularity.popularity t).
Proof.
  unfold Popularity.to_entry, Popularity.has_track_id.
  destruct (track it) as [[[i|] p]|]; simpl; try done.
  intros [= <-] Ht. simpl. split; [|by eexists].
  rewrite negb_true_iff in Ht. by apply String.eqb_neq.
Qed.

(** Every track that [getPlaylistTracks] returns has a non-empty identifier;
    in the popularity version it also has a popularity (0 when the answer
    had none), so the fallback of [calculateAveragePopularity] never applies
    to a fetched track. *)
Theorem getPlaylistTracks_returns_usable_tracks
    (w : world) (playlistId : string) (s : state) :
  (∀ tracks s',
     Popularity.getPlaylistTracks w playlistId s = (Return tracks, s') →
     Forall (λ t, Popularity.id t ≠ "" ∧ is_Some (Popularity.popularity t))
       tracks)
  ∧ (∀ ids s',
       Category.getPlaylistTracks w playlistId s = (Return ids, s') →
       Forall (λ id, id ≠ "") ids).
Proof.
  split.
  - intros tracks s'.
    unfold Popularity.getPlaylistTracks, try_catch, mbind, async_bind.
    destruct (getToken w s) as [[tok|e] s1]; [|done].
    unfold await. destruct (tracks_endpoint w _ _ _) as [data|status]; [|done].
    cbn [fst snd]. unfold console_log, print.
    destruct (items data) as [its|]; [|done].
    destruct (length its =? 0)%nat; [done|]. cbv zeta.
    intros [= <- _].
    apply List.Forall_forall. intros t Ht.
    apply list_elem_of_In, list_elem_of_omap in Ht as (it' & Hin & Hsome).
    apply list_elem_of_In, filter_In in Hin as [_ Hkeep].
    by eapply to_entry_kept.
  - intros ids s'.
    unfold Category.getPlaylistTracks, try_catch, mbind, async_bind.
    destruct (getToken w s) as [[tok|e] s1]; [|done].
    unfold await. destruct (tracks_endpoint w _ _ _) as [data|status]; [|done].
    cbn [fst snd]. unfold console_log, print.
    destruct (items data) as [its|]; [|done].
    destruct (length its =? 0)%nat; [done|].
    destruct (Category.track_ids its) as [l|]; [|done].
    intros [= <- _]. unfold Category.filter_Boolean.
    apply List.Forall_forall. intros i Hi.
    apply list_elem_of_In, list_elem_of_omap in Hi as (o & _ & Ho).
    destruct (truthy o) eqn:Ht; [|done]. subst o. by apply truthy_Some.
Qed.

Lemma getPlaylistTracks_returns_usable_tracks_witness :
  Forall (λ t, Popularity.id t ≠ "" ∧ is_Some (Popularity.popularity t))
    [ {| Popularity.id := Sample.T 3; Popularity.popularity := Some 80%float |};
      {| Popularity.id := Sample.T 4; Popularity.popularity := Some 90%float |} ].
Proof.
  apply (proj1 (getPlaylistTracks_returns_usable_tracks (Sample.healthy 0 0)
                  Sample.P2 Sample.fresh)
           _ (snd (Popularity.getPlaylistTracks (Sample.healthy 0 0) Sample.P2
                     Sample.fresh))).
  vm_compute. reflexivity.
Defined.

(** ** Links and identifiers *)

Lemma list_ascii_of_string_app (a b : string) :
  list_ascii_of_string (a +:+ b) = list_ascii_of_string a ++ list_ascii_of_string b.
Proof. induction a as [|c a IH]; simpl; [done|]. by rewrite IH. Qed.

Lemma length_list_ascii_of_string (a : string) :
  length (list_ascii_of_string a) = String.length a.
Proof. induction a as [|c a IH]; simpl; [done|]. by rewrite IH. Qed.

(** What extraction returns is always an identifier: 22 characters, all
    letters or digits.  And a link in the form the service shares,
    [https://open.spotify.com/playlist/] followed by an identifier and by
    anything, gives back that identifier, whatever comes after it. *)
Theorem extraction_returns_identifiers :
  (∀ url id s,
     fst (extractPlaylistId url s) = Return (Some id) →
     String.length id = 22%nat
     ∧ Forall (λ c, is_alnum c = true) (list_ascii_of_string id))
  ∧ (∀ id rest s,
       String.length id = 22%nat →
       Forall (λ c, is_alnum c = true) (list_ascii_of_string id) →
       extractPlaylistId ("https://open.spotify.com/playlist/" +:+ id +:+ rest) s
       = (Return (Some id), s)).
Proof.
  split.
  - intros url id s. destruct (extractPlaylistId_value url s) as [-> _].
    intros [= Hm]. unfold url_match in Hm.
    destruct (regex_search (list_ascii_of_string url)) as [l|] eqn:Hs; [|done].
    injection Hm as <-.
    apply regex_search_Some in Hs as (i & (r & _ & Hl & Ha) & _).
    rewrite <-length_list_ascii_of_string.
    by rewrite list_ascii_of_string_of_list_ascii.
  - intros id rest s Hl Ha.
    rewrite <-(string_of_list_ascii_of_string id) at 2.
    apply extractPlaylistId_match, url_match_Some, regex_search_Some.
    rewrite !list_ascii_of_string_app.
    exists 25%nat. split.
    + exists (list_ascii_of_string rest). split; [reflexivity|].
      split; [|done]. by rewrite length_list_ascii_of_string.
    + intros j id' Hj Hp. apply pattern_at_literal, literal_at_strip in Hp.
      do 25 (destruct j as [|j]; [by destruct Hp as [? [=]]|]). lia.
Qed.

Lemma extraction_returns_identifiers_witness :
  extractPlaylistId
    ("https://open.spotify.com/playlist/" +:+ Sample.P2 +:+ "?si=0123456789abcdef")
    Sample.warm
  = (Return (Some Sample.P2), Sample.warm).
Proof.
  apply (proj2 extraction_returns_identifiers Sample.P2 "?si=0123456789abcdef"
           Sample.warm).
  - reflexivity.
  - repeat (constructor; [reflexivity|]). constructor.
Defined.

(** ** The order of the calls *)

Lemma fetches_app s l :
  List.filter is_fetch (requests s ++ l) = fetches s ++ List.filter is_fetch l.
Proof. unfold fetches. apply List.filter_app. Qed.

Lemma getToken_fetches w s r s1 :
  getToken w s = (r, s1) → fetches s1 = fetches s.
Proof.
  rewrite getToken_run. destruct (_ && _); [by intros [= _ <-]|].
  rewrite exchange_run. simpl.
  destruct (token_endpoint w _); intros [= _ <-]; unfold fetches at 1; simpl;
    rewrite fetches_app; simpl; by rewrite app_nil_r.
Qed.

Lemma Popularity_getPlaylistTracks_fetches w p s tracks s' :
  Popularity.getPlaylistTracks w p s = (Return tracks, s') →
  ∃ tok, fetches s' = fetches s ++ [GetPlaylistTracks p tok].
Proof.
  unfold Popularity.getPlaylistTracks, try_catch, mbind, async_bind.
  destruct (getToken w s) as [[tok|e] s1] eqn:Htok; [|done].
  apply getToken_fetches in Htok. exists tok. revert H.
  unfold await. destruct (tracks_endpoint w _ _ _) as [data|status]; [|done].
  cbn [fst snd]. unfold console_log, print.
  destruct (items data) as [its|]; [|done].
  destruct (length its =? 0)%nat; [done|]. cbv zeta.
  intros [= _ <-]. unfold fetches at 1. simpl.
  by rewrite fetches_app, Htok.
Qed.

Lemma Category_getPlaylistTracks_fetches w p s ids s' :
  Category.getPlaylistTracks w p s = (Return ids, s') →
  ∃ tok, fetches s' = fetches s ++ [GetPlaylistTracks p tok].
Proof.
  unfold Category.getPlaylistTracks, try_catch, mbind, async_bind.
  destruct (getToken w s) as [[tok|e] s1] eqn:Htok; [|done].
  apply getToken_fetches in Htok. exists tok. revert H.
  unfold await. destruct (tracks_endpoint w _ _ _) as [data|status]; [|done].
  cbn [fst snd]. unfold console_log, print.
  destruct (items data) as [its|]; [|done].
  destruct (length its =? 0)%nat; [done|].
  destruct (Category.track_ids its); [|done].
  intros [= _ <-]. unfold fetches at 1. simpl.
  by rewrite fetches_app, Htok.
Qed.

Lemma getPlaylistInfo_fetches w p s i s' :
  Popularity.getPlaylistInfo w p s = (Return i, s') →
  ∃ tok, fetches s' = fetches s ++ [GetPlaylist p tok].
Proof.
  unfold Popularity.getPlaylistInfo, try_catch, mbind at 1 2, async_bind.
  destruct (getToken w s) as [[tok|e] s1] eqn:Htok; [|done].
  apply getToken_fetches in Htok. exists tok. revert H.
  unfold await. destruct (playlist_endpoint w _ _ _) as [data|status]; [|done].
  intros [= _ <-]. unfold fetches at 1. simpl.
  by rewrite fetches_app, Htok.
Qed.

Lemma getAudioFeatures_fetches w ids s features s' :
  Category.getAudioFeatures w ids s = (Return features, s') →
  ∃ tok, fetches s'
         = fetches s
           ++ [GetAudioFeatures (List.filter Category.valid_track_id ids) tok].
Proof.
  unfold Category.getAudioFeatures, try_catch, mbind, async_bind.
  destruct (getToken w s) as [[tok|e] s1] eqn:Htok;
    [|by destruct (Category.is_rate_limit e)].
  apply getToken_fetches in Htok. exists tok. revert H. cbv zeta.
  destruct (length _ =? 0)%nat; [done|].
  unfold await. destruct (features_endpoint w _ _ _) as [data|status].
  - cbn [fst snd]. unfold console_log, print.
    destruct (audio_features data) as [fs|]; [|done].
    destruct (length fs =? 0)%nat; [done|].
    intros [= _ <-]. unfold fetches at 1. simpl.
    by rewrite fetches_app, Htok.
  - by destruct (Category.is_rate_limit (AxiosError status)).
Qed.

(** A comparison that succeeds has made its calls in the order of the
    source, token exchanges set aside: in the popularity version the tracks
    of the first playlist, the tracks of the second, then the information of
    the first and of the second; in the category version the tracks of the
    first, the tracks of the second, then the features of the first and of
    the second (unless a track list is empty, in which case no feature is
    asked for). *)
Theorem calls_follow_the_source_order
    (w : world) (playlist1Id playlist2Id : string) (s s' : state) :
  (∀ r,
     Popularity.determineWinner w playlist1Id playlist2Id s = (Return r, s') →
     ∃ tok1 tok2 tok3 tok4,
       fetches s'
       = fetches s
         ++ [ GetPlaylistTracks playlist1Id tok1;
              GetPlaylistTracks playlist2Id tok2;
              GetPlaylist playlist1Id tok3;
              GetPlaylist playlist2Id tok4 ])
  ∧ (∀ category r,
       Category.is_truthy (Category.lookup_category category) = true →
       Category.determineWinner w playlist1Id playlist2Id category s
       = (Return r, s') →
       ∃ tok1 tok2,
         (r = "One of the playlists has no tracks."
          ∧ fetches s'
            = fetches s
              ++ [ GetPlaylistTracks playlist1Id tok1;
                   GetPlaylistTracks playlist2Id tok2 ])
         ∨ ∃ ids1 ids2 tok3 tok4,
             Forall (λ id, id ≠ "" ∧ String.length id = 22%nat) (ids1 ++ ids2)
             ∧ fetches s'
               = fetches s
                 ++ [ GetPlaylistTracks playlist1Id tok1;
                      GetPlaylistTracks playlist2Id tok2;
                      GetAudioFeatures ids1 tok3;
                      GetAudioFeatures ids2 tok4 ]).
Proof.
  split.
  - intros r.
    unfold Popularity.determineWinner, try_catch, mbind, async_bind.
    destruct (Popularity.getPlaylistTracks w playlist1Id s) as [[t1|e1] s1] eqn:H1;
      [|done].
    destruct (Popularity.getPlaylistTracks w playlist2Id s1) as [[t2|e2] s2] eqn:H2;
      [|done].
    destruct (Popularity.getPlaylistInfo w playlist1Id s2) as [[i1|e3] s3] eqn:H3;
      [|done].
    destruct (Popularity.getPlaylistInfo w playlist2Id s3) as [[i2|e4] s4] eqn:H4;
      [|done].
    destruct (_ || _); [done|]. cbv zeta. intros [= _ <-].
    apply Popularity_getPlaylistTracks_fetches in H1 as [tok1 E1].
    apply Popularity_getPlaylistTracks_fetches in H2 as [tok2 E2].
    apply getPlaylistInfo_fetches in H3 as [tok3 E3].
    apply getPlaylistInfo_fetches in H4 as [tok4 E4].
    exists tok1, tok2, tok3, tok4.
    rewrite E4, E3, E2, E1. by rewrite <-!(assoc_L (++)).
  - intros category r Hpass.
    unfold Category.determineWinner. rewrite Hpass. cbn beta iota delta [negb].
    unfold try_catch, mbind, async_bind.
    destruct (Category.getPlaylistTracks w playlist1Id s) as [[t1|e1] s1] eqn:H1;
      [|done].
    destruct (Category.getPlaylistTracks w playlist2Id s1) as [[t2|e2] s2] eqn:H2;
      [|done].
    apply Category_getPlaylistTracks_fetches in H1 as [tok1 E1].
    apply Category_getPlaylistTracks_fetches in H2 as [tok2 E2].
    intros Hrun. exists tok1, tok2. revert Hrun.
    destruct (_ || _).
    + intros [= <- <-]. left. split; [done|].
      rewrite E2, E1. by rewrite <-!(assoc_L (++)).
    + destruct (Category.getAudioFeatures w t1 s2) as [[f1|e3] s3] eqn:H3;
        [|done].
      destruct (Category.getAudioFeatures w t2 s3) as [[f2|e4] s4] eqn:H4;
        [|done].
      intros [= _ <-]. right.
      apply getAudioFeatures_fetches in H3 as [tok3 E3].
      apply getAudioFeatures_fetches in H4 as [tok4 E4].
      eexists _, _, tok3, tok4. split.
      * apply Forall_app. split; apply filter_valid_length.
      * rewrite E4, E3, E2, E1. by rewrite <-!(assoc_L (++)).
Qed.

Lemma calls_follow_the_source_order_witness :
  ∃ tok1 tok2 tok3 tok4,
    fetches (snd (Popularity.determineWinner (Sample.healthy 0 0)
                    Sample.P1 Sample.P2 Sample.warm))
    = fetches Sample.warm
      ++ [ GetPlaylistTracks Sample.P1 tok1;
           GetPlaylistTracks Sample.P2 tok2;
           GetPlaylist Sample.P1 tok3;
           GetPlaylist Sample.P2 tok4 ].
Proof.
  apply (proj1 (calls_follow_the_source_order (Sample.healthy 0 0)
                  Sample.P1 Sample.P2 Sample.warm
                  (snd (Popularity.determineWinner (Sample.healthy 0 0)
                          Sample.P1 Sample.P2 Sample.warm)))
           (Popularity.WithPlaylist
              {| Popularity.name := "Deep cuts";
                 Popularity.image := "https://i.scdn.co/image/p1" |}
              "Deep cuts is more underground, smell some good taste in there!")).
  vm_compute. reflexivity.
Defined.
